(** * The linear-algebra utilities of [2_Project_2/shape-editor.js]

    A shallow embedding of the vector and matrix library that the WebGL
    demos share (constructors, generic operations, transform builders,
    determinants, inverses and [linearFlatten]), followed by the properties
    its specification states.

    The library is written once over an interface of JavaScript numbers,
    [Number], and read at two instances:
    - [float], the IEEE 754 binary64 numbers the program runs on
      (infinities, NaN and signed zeros included), on which the definitions
      evaluate, given the host's [Math.cos], [Math.sin] and [Math.tan];
    - [R], exact real arithmetic, in which the algebraic laws hold without
      rounding. *)

From Stdlib Require Import ZArith List String Bool Lia.
From Stdlib Require Import Reals Lra Field.
From Stdlib Require Import Floats.
From stdpp Require Import base option list.
Import ListNotations.

Set Default Proof Using "Type".
Local Open Scope string_scope.
Local Open Scope nat_scope.
Local Open Scope list_scope.

(** ** Numbers *)

(** What the library uses of a JavaScript number: literals, the arithmetic
    operators, [==], the global [isFinite], four members of [Math], and the
    conversion that storing into a [Float32Array] performs. *)
Class Number (T : Type) : Type := {
  ofZ : Z -> T;
  add : T -> T -> T;
  sub : T -> T -> T;
  mul : T -> T -> T;
  div : T -> T -> T;
  neg : T -> T;
  looseEq : T -> T -> bool;
  isFinite : T -> bool;
  Math_sqrt : T -> T;
  Math_cos : T -> T;
  Math_sin : T -> T;
  Math_tan : T -> T;
  Math_PI : T;
  toFloat32 : T -> T
}.

(** The value that arithmetic on a non-numeric operand produces.  Only IEEE
    numbers have one. *)
Class NotANumber (T : Type) : Type := NaN : T.

Declare Scope num_scope.
Delimit Scope num_scope with num.
Notation "x + y" := (add x y) : num_scope.
Notation "x - y" := (sub x y) : num_scope.
Notation "x * y" := (mul x y) : num_scope.
Notation "x / y" := (div x y) : num_scope.
Notation "- x" := (neg x) : num_scope.
Notation "x == y" := (looseEq x y) (at level 70, no associativity) : num_scope.
Notation "x != y" := (negb (looseEq x y)) (at level 70, no associativity) : num_scope.

(** *** Exact arithmetic *)

Definition Req_bool (x y : R) : bool := if Req_dec_T x y then true else false.

#[export] Instance R_Number : Number R := {|
  ofZ := IZR;
  add := Rplus; sub := Rminus; mul := Rmult; div := Rdiv; neg := Ropp;
  looseEq := Req_bool;
  isFinite := fun _ => true;
  Math_sqrt := R_sqrt.sqrt; Math_cos := Rtrigo_def.cos;
  Math_sin := Rtrigo_def.sin; Math_tan := Rtrigo1.tan;
  Math_PI := Rtrigo1.PI;
  toFloat32 := fun x => x
|}.

(** *** IEEE 754 binary64 *)

Module Binary64.

Definition literal (z : Z) : float :=
  match z with
  | Z0 => 0%float
  | Zpos _ => of_uint63 (Uint63.of_Z z)
  | Zneg p => (- of_uint63 (Uint63.of_Z (Zpos p)))%float
  end.

(** Rounding to binary32 (24 bits of precision, [emax = 128]), nearest
    even, as [Float32Array] stores do. *)
Definition fround (x : float) : float :=
  match Prim2SF x with
  | S754_finite s m e => SF2Prim (binary_round 24 128 s m e)
  | _ => x
  end.

Definition pi : float := 0x1.921fb54442d18p+1%float.

(** [Math.cos], [Math.sin] and [Math.tan] are approximations that the
    host chooses; the instance takes them as given. *)
Class Host : Type := {
  cos : float -> float;
  sin : float -> float;
  tan : float -> float
}.

#[global] Instance number `{Host} : Number float := {|
  ofZ := literal;
  add := PrimFloat.add; sub := PrimFloat.sub; mul := PrimFloat.mul;
  div := PrimFloat.div; neg := PrimFloat.opp;
  looseEq := PrimFloat.eqb;
  isFinite := PrimFloat.is_finite;
  Math_sqrt := PrimFloat.sqrt;
  Math_cos := cos; Math_sin := sin; Math_tan := tan;
  Math_PI := pi;
  toFloat32 := fround
|}.

(** A host for the evaluation of examples that call none of the three. *)
Definition plain : Host :=
  {| cos := fun x => x; sin := fun x => x; tan := fun x => x |}.

End Binary64.

#[export] Instance float_NaN : NotANumber float := PrimFloat.nan.

(** ** Completions and the console *)

(** What a call leaves behind: the lines it wrote with [console.error], in
    order, and how it completed. *)
Inductive thrown : Type :=
| Message (msg : string)
| TypeError.

Inductive completion (A : Type) : Type :=
| Normal (a : A)
| Throw (e : thrown)
| Unmodelled.
Arguments Normal {A} a.
Arguments Throw {A} e.
Arguments Unmodelled {A}.

(** [Unmodelled] marks the places where a value that is not a number enters
    an arithmetic operator or is stored in an array of numbers (an
    [undefined] read past the end of a row, a row used as a number); the
    program continues there with [NaN], strings or [undefined] entries,
    which the arrays of numbers below do not hold. *)

Definition Js (A : Type) : Type := (list string * completion A)%type.

Definition ret {A} (a : A) : Js A := ([], Normal a).
Definition bind {A B} (m : Js A) (k : A -> Js B) : Js B :=
  match m with
  | (log, Normal a) => let '(log', r) := k a in (log ++ log', r)
  | (log, Throw e) => (log, Throw e)
  | (log, Unmodelled) => (log, Unmodelled)
  end.
Definition throw {A} (e : thrown) : Js A := ([], Throw e).
Definition unmodelled {A} : Js A := ([], Unmodelled).
Definition console_error (prefix msg : string) : Js unit :=
  ([String.append prefix (String.append " " msg)], Normal tt).

Declare Scope js_scope.
Delimit Scope js_scope with js.
Notation "x <- m ;; k" := (bind m (fun x => k))
  (at level 100, m at next level, right associativity) : js_scope.
Notation "m ;;; k" := (bind m (fun _ => k))
  (at level 100, right associativity) : js_scope.

(** ** Arrays *)

Section Library.
Context {T : Type} `{Number T}.

Local Open Scope js_scope.

(** The arrays the library works on: an array of numbers, or an array of
    rows of numbers, which carries the property [matrix] when a matrix
    constructor or a matrix operation built it. *)
Inductive array : Type :=
| Vector (xs : list T)
| Nested (matrix : bool) (rows : list (list T)).

(** One actual argument of a variadic constructor: a number or an array of
    numbers. *)
Inductive arg : Type :=
| Num (x : T)
| Arr (xs : list T).

Definition length_of (u : array) : nat :=
  match u with
  | Vector xs => length xs
  | Nested _ rows => length rows
  end.

Definition matrix_of (u : array) : bool :=
  match u with
  | Vector _ => false
  | Nested tag _ => tag
  end.

(** [u[i]] for a row [u], where the value is used as a number. *)
Definition item (u : list T) (i : nat) : Js T :=
  match u !! i with
  | Some x => ret x
  | None => unmodelled
  end.

(** [m[i][j]].  A missing row makes the second subscript throw; a missing
    entry of a row that exists is [undefined]; so is any subscript of a
    number. *)
Definition entry (m : array) (i j : nat) : Js T :=
  match m with
  | Vector xs =>
      match xs !! i with
      | Some _ => unmodelled
      | None => throw TypeError
      end
  | Nested _ rows =>
      match rows !! i with
      | Some r => item r j
      | None => throw TypeError
      end
  end.

(** [m[i][j] = x].  Writing at the end of a row extends it, further out
    leaves holes. *)
Definition setEntry (m : array) (i j : nat) (x : T) : Js array :=
  match m with
  | Vector xs =>
      match xs !! i with
      | Some _ => ret m
      | None => throw TypeError
      end
  | Nested tag rows =>
      match rows !! i with
      | Some r =>
          if j <? length r then ret (Nested tag (<[i := <[j := x]> r]> rows))
          else if j =? length r then ret (Nested tag (<[i := r ++ [x]]> rows))
          else unmodelled
      | None => throw TypeError
      end
  end.

(** Arithmetic on computed operands, evaluated left to right. *)
Definition lift1 (f : T -> T) (a : Js T) : Js T := x <- a ;; ret (f x).
Definition lift2 (f : T -> T -> T) (a b : Js T) : Js T :=
  x <- a ;; y <- b ;; ret (f x y).

(** [for (var i = 0; i < n; ++i) acc = body(acc, i)] *)
Fixpoint for_each {A} (idx : list nat) (body : A -> nat -> Js A) (acc : A) : Js A :=
  match idx with
  | [] => ret acc
  | i :: idx' => acc' <- body acc i ;; for_each idx' body acc'
  end.
Definition for_loop {A} (n : nat) (body : A -> nat -> Js A) (acc : A) : Js A :=
  for_each (seq 0 n) body acc.

(** ** Helpers *)

Definition objectToArray (args : list arg) : list T :=
  flat_map (fun a => match a with Num x => [x] | Arr xs => xs end) args.

Definition degreesToRadians (degrees : T) : T :=
  ((degrees * Math_PI) / ofZ 180)%num.

(** ** Vector constructors *)

Definition vec2 (args : list arg) : list T :=
  let result := objectToArray args in
  let result :=
    match length result with
    | 0 => result ++ [ofZ 0; ofZ 0]
    | 1 => result ++ [ofZ 0]
    | _ => result
    end in
  take 2 result.

Definition vec3 (args : list arg) : list T :=
  let result := objectToArray args in
  let result :=
    match length result with
    | 0 => result ++ [ofZ 0; ofZ 0; ofZ 0]
    | 1 => result ++ [ofZ 0; ofZ 0]
    | 2 => result ++ [ofZ 0]
    | _ => result
    end in
  take 3 result.

Definition vec4 (args : list arg) : list T :=
  let result := objectToArray args in
  let result :=
    match length result with
    | 0 => result ++ [ofZ 0; ofZ 0; ofZ 0; ofZ 1]
    | 1 => result ++ [ofZ 0; ofZ 0; ofZ 1]
    | 2 => result ++ [ofZ 0; ofZ 1]
    | 3 => result ++ [ofZ 1]
    | _ => result
    end in
  take 4 result.

(** ** Matrix constructors *)

Definition mat2 (args : list arg) : array :=
  let v := objectToArray args in
  let diagonal v0 :=
    [vec2 [Num v0; Num (ofZ 0)]; vec2 [Num (ofZ 0); Num v0]] in
  Nested true
    match v with
    | [] => diagonal (ofZ 1)
    | [v0] => diagonal v0
    | _ => let r0 := vec2 [Arr v] in
           let v := drop 2 v in
           [r0; vec2 [Arr v]]
    end.

Definition mat3 (args : list arg) : array :=
  let v := objectToArray args in
  let diagonal v0 :=
    [vec3 [Num v0; Num (ofZ 0); Num (ofZ 0)];
     vec3 [Num (ofZ 0); Num v0; Num (ofZ 0)];
     vec3 [Num (ofZ 0); Num (ofZ 0); Num v0]] in
  Nested true
    match v with
    | [] => diagonal (ofZ 1)
    | [v0] => diagonal v0
    | _ => let r0 := vec3 [Arr v] in
           let v := drop 3 v in
           let r1 := vec3 [Arr v] in
           let v := drop 3 v in
           [r0; r1; vec3 [Arr v]]
    end.

Definition mat4 (args : list arg) : array :=
  let v := objectToArray args in
  let diagonal v0 :=
    [vec4 [Num v0; Num (ofZ 0); Num (ofZ 0); Num (ofZ 0)];
     vec4 [Num (ofZ 0); Num v0; Num (ofZ 0); Num (ofZ 0)];
     vec4 [Num (ofZ 0); Num (ofZ 0); Num v0; Num (ofZ 0)];
     vec4 [Num (ofZ 0); Num (ofZ 0); Num (ofZ 0); Num v0]] in
  Nested true
    match v with
    | [] => diagonal (ofZ 1)
    | [v0] => diagonal v0
    | _ => let r0 := vec4 [Arr v] in
           let v := drop 4 v in
           let r1 := vec4 [Arr v] in
           let v := drop 4 v in
           let r2 := vec4 [Arr v] in
           let v := drop 4 v in
           [r0; r1; r2; vec4 [Arr v]]
    end.

(** ** Generic matrix and vector operations *)

Definition WebGL_Utilities : string := "WebGL Utilities:".

(** [p(u[i], v[i])] for every [i < u.length], where [v] is as long. *)
Fixpoint all2 {A B} (p : A -> B -> bool) (u : list A) (v : list B) : bool :=
  match u, v with
  | [], _ => true
  | x :: u', y :: v' => p x y && all2 p u' v'
  | _ :: _, [] => false
  end.

Definition same_length (r s : list T) : bool := length r =? length s.

Definition linearEquivalence (u v : array) : Js bool :=
  if negb (length_of u =? length_of v) then ret false
  else
    match u, v with
    | Nested true ur, Nested true vr =>
        ret (all2 (fun r s => same_length r s && all2 looseEq r s) ur vr)
    | Nested true _, _ | _, Nested true _ => ret false
    | Vector us, Vector vs => ret (all2 looseEq us vs)
    | Vector _, Nested false _ | Nested false _, Vector _ =>
        (* a number is never [===] an array *)
        ret (length_of u =? 0)
    | Nested false ur, Nested false _ =>
        (* [!==] on two rows compares the identity of the objects *)
        if length ur =? 0 then ret true else unmodelled
    end.

(** The body that [linearAddition] and [linearSubtract] share: the two
    differ in the operator and in the text of their messages. *)
Section Elementwise.
Variable op : T -> T -> T.
Variables matrix_lengths row_lengths mixed vector_lengths : string.

Fixpoint elementwise_rows (ur vr result : list (list T)) : Js (option array) :=
  match ur, vr with
  | [], _ => ret (Some (Nested true result))
  | r :: ur', s :: vr' =>
      if negb (same_length r s) then
        console_error WebGL_Utilities row_lengths ;;; ret None
      else elementwise_rows ur' vr' (result ++ [zip_with op r s])
  | _ :: _, [] => throw TypeError
  end.

Definition elementwise (u v : array) : Js (option array) :=
  match u, v with
  | Nested true ur, Nested true vr =>
      if negb (length ur =? length vr) then
        console_error WebGL_Utilities matrix_lengths ;;; ret None
      else elementwise_rows ur vr []
  | Nested true _, _ | _, Nested true _ =>
      console_error WebGL_Utilities mixed ;;; ret None
  | _, _ =>
      if negb (length_of u =? length_of v) then
        console_error WebGL_Utilities vector_lengths ;;; ret None
      else
        match u, v with
        | Vector us, Vector vs => ret (Some (Vector (zip_with op us vs)))
        | _, _ =>
            (* an operand is an array of rows: the operator works on
               the rows themselves *)
            if length_of u =? 0 then ret (Some (Vector [])) else unmodelled
        end
  end.
End Elementwise.

Definition linearAddition : array -> array -> Js (option array) :=
  elementwise add
    "linearAddition(): Cannot add matrices of different dimensions."
    "linearAddition(): Cannot add matrices of different dimensions."
    "linearAddition(): Cannot add matrix and non-matrix variables."
    "linearAddition(): Cannot add matrices of different dimensions.".

Definition linearSubtract : array -> array -> Js (option array) :=
  elementwise sub
    "linearSubtract(): Cannot subtract matrices of different lengths."
    "linearSubtract(): Cannot subtract matrices of different lengths."
    "linearSubtract(): Cannot subtract vector/matrix and non-vector/matrix variables."
    "linearSubtract(): Cannot subtract vectors/matrices of different lengths.".

(** [v[j]] used as a number, for an array [v] that is not a matrix. *)
Definition number_at (v : array) (j : nat) : Js T :=
  match v with
  | Vector xs => item xs j
  | Nested _ _ => unmodelled
  end.

(** [sum = 0.0; for (k < n) sum += term(k)] *)
Definition sum_loop (n : nat) (term : nat -> Js T) : Js T :=
  for_loop n (fun sum k => lift2 add (ret sum) (term k)) (ofZ 0).

(** [result = []; for (i < n) result.push(value(i))] *)
Definition push_loop {A} (n : nat) (value : nat -> Js A) : Js (list A) :=
  for_loop n (fun result i => x <- value i ;; ret (result ++ [x])) [].

Definition linearMultiply_different : string :=
  "linearMultiply(): Cannot multiply vectors/matrices of different dimensions.".

Definition linearMultiply (u v : array) : Js (option array) :=
  match u, v with
  | Nested true ur, Nested true vr =>
      if negb (length ur =? length vr) then
        console_error WebGL_Utilities linearMultiply_different ;;; ret None
      else if negb (all2 same_length ur vr) then
        console_error WebGL_Utilities linearMultiply_different ;;; ret None
      else
        result <- push_loop (length ur) (fun i =>
          push_loop (length vr) (fun j =>
            sum_loop (length ur) (fun k =>
              lift2 mul (entry u i k) (entry v k j)))) ;;
        ret (Some (Nested true result))
  | _, _ =>
      if matrix_of u && (length_of u =? length_of v) then
        result <- push_loop (length_of v) (fun i =>
          sum_loop (length_of v) (fun j =>
            lift2 mul (entry u i j) (number_at v j))) ;;
        ret (Some (Vector result))
      else if negb (length_of u =? length_of v) then
        console_error WebGL_Utilities linearMultiply_different ;;; ret None
      else
        match u, v with
        | Vector us, Vector vs => ret (Some (Vector (zip_with mul us vs)))
        | _, _ => if length_of u =? 0 then ret (Some (Vector [])) else unmodelled
        end
  end.

(** ** Matrix functions *)

Definition row_length (m : array) (i : nat) : Js nat :=
  match m with
  | Vector xs =>
      match xs !! i with Some _ => unmodelled | None => throw TypeError end
  | Nested _ rows =>
      match rows !! i with Some r => ret (length r) | None => throw TypeError end
  end.

Definition transposeMatrix (m : array) : Js (option array) :=
  if negb (matrix_of m) then
    console_error WebGL_Utilities "transposeMatrix(): Cannot transpose a non-matrix." ;;;
    ret None
  else
    result <- push_loop (length_of m) (fun i =>
      n <- row_length m i ;;
      push_loop n (fun j => entry m j i)) ;;
    ret (Some (Nested true result)).

(** ** Vector functions *)

Definition dotProduct (u v : list T) : Js T :=
  (if negb (length u =? length v) then
     console_error "WebGL Utilities" "dotProduct(): Vectors are not the same dimension."
   else ret tt) ;;;
  sum_loop (length u) (fun i => lift2 mul (item u i) (item v i)).

Definition negateElements (u : list T) : list T := map neg u.

(** Either argument may be [undefined], which is not an array. *)
Definition crossProduct (u v : option (list T)) : Js (option (list T)) :=
  match u, v with
  | Some u, Some v =>
      if length u <? 3 then
        console_error WebGL_Utilities
          "crossProduct(): First argument is not a vector of minimum size, 3." ;;;
        ret None
      else if length v <? 3 then
        console_error WebGL_Utilities
          "crossProduct(): Second argument is not a vector of minimum size, 3." ;;;
        ret None
      else
        let mul' := lift2 mul in let sub' := lift2 sub in
        x <- sub' (mul' (item u 1) (item v 2)) (mul' (item u 2) (item v 1)) ;;
        y <- sub' (mul' (item u 2) (item v 0)) (mul' (item u 0) (item v 2)) ;;
        z <- sub' (mul' (item u 0) (item v 1)) (mul' (item u 1) (item v 0)) ;;
        ret (Some [x; y; z])
  | None, _ =>
      console_error WebGL_Utilities
        "crossProduct(): First argument is not a vector of minimum size, 3." ;;;
      ret None
  | Some u, None =>
      if length u <? 3 then
        console_error WebGL_Utilities
          "crossProduct(): First argument is not a vector of minimum size, 3." ;;;
        ret None
      else
        console_error WebGL_Utilities
          "crossProduct(): Second argument is not a vector of minimum size, 3." ;;;
        ret None
  end.

Definition vectorLength (u : list T) : Js T :=
  lift1 Math_sqrt (dotProduct u u).

(** [normalizeVectors] works in place: the array it returns is its
    argument, updated. *)
Definition normalizeVectors (u : list T) (excludeLastComponent : bool)
  : Js (option (list T)) :=
  let popped := if excludeLastComponent then last u else None in
  let u := if excludeLastComponent then removelast u else u in
  len <- vectorLength u ;;
  if negb (isFinite len) then
    console_error "WebGL Utilities" "normalizeVectors(): Vector has zero length." ;;;
    ret None
  else
    let u := map (fun x => x / len)%num u in
    if excludeLastComponent then
      match popped with
      | Some x => ret (Some (u ++ [x]))
      | None => unmodelled
      end
    else ret (Some u).

(** ** Transformation matrices *)

(** An [undefined] operand where an object is required. *)
Definition defined {A} (x : option A) : Js A :=
  match x with
  | Some a => ret a
  | None => throw TypeError
  end.

(** An array whose elements are used as numbers. *)
Definition numbers (u : array) : Js (list T) :=
  match u with
  | Vector xs => ret xs
  | Nested _ [] => ret []
  | Nested _ (_ :: _) => unmodelled
  end.

(** [a[i][j] = value] *)
Definition assign (a : array) (i j : nat) (value : Js T) : Js array :=
  x <- value ;; setEntry a i j x.

(** The three numbers of a call [f(x, y, z)] that may also be written
    [f([x, y, z])]. *)
Definition three (x : arg) (y z : T) : Js (T * T * T) :=
  match x with
  | Arr [x0; x1; x2] => ret (x0, x1, x2)
  | Arr _ => unmodelled
  | Num x => ret (x, y, z)
  end.

Definition translateMatrix (x : arg) (y z : T) : Js array :=
  xyz <- three x y z ;;
  let '(x, y, z) := xyz in
  let result := mat4 [] in
  result <- setEntry result 0 3 x ;;
  result <- setEntry result 1 3 y ;;
  result <- setEntry result 2 3 z ;;
  ret result.

Definition rotateMatrix (angle : T) (rest : list arg) : Js array :=
  axis <- match rest with
          | Arr xs :: _ => ret xs
          | Num a1 :: Num a2 :: Num a3 :: _ => ret [a1; a2; a3]
          | _ => unmodelled
          end ;;
  v <- normalizeVectors axis false ;;
  v <- defined v ;;
  x <- item v 0 ;;
  y <- item v 1 ;;
  z <- item v 2 ;;
  let c := Math_cos (degreesToRadians angle) in
  let omc := (ofZ 1 - c)%num in
  let s := Math_sin (degreesToRadians angle) in
  ret (mat4
    [Arr (vec4 [Num (x * x * omc + c); Num (x * y * omc - z * s);
                Num (x * z * omc + y * s); Num (ofZ 0)]%num);
     Arr (vec4 [Num (x * y * omc + z * s); Num (y * y * omc + c);
                Num (y * z * omc - x * s); Num (ofZ 0)]%num);
     Arr (vec4 [Num (x * z * omc - y * s); Num (y * z * omc + x * s);
                Num (z * z * omc + c); Num (ofZ 0)]%num);
     Arr (vec4 [])]).

Definition rotateX (theta : T) : array :=
  let c := Math_cos (degreesToRadians theta) in
  let s := Math_sin (degreesToRadians theta) in
  mat4 (map Num
    [ofZ 1; ofZ 0; ofZ 0; ofZ 0;
     ofZ 0; c; (- s)%num; ofZ 0;
     ofZ 0; s; c; ofZ 0;
     ofZ 0; ofZ 0; ofZ 0; ofZ 1]).

Definition rotateY (theta : T) : array :=
  let c := Math_cos (degreesToRadians theta) in
  let s := Math_sin (degreesToRadians theta) in
  mat4 (map Num
    [c; ofZ 0; s; ofZ 0;
     ofZ 0; ofZ 1; ofZ 0; ofZ 0;
     (- s)%num; ofZ 0; c; ofZ 0;
     ofZ 0; ofZ 0; ofZ 0; ofZ 1]).

Definition rotateZ (theta : T) : array :=
  let c := Math_cos (degreesToRadians theta) in
  let s := Math_sin (degreesToRadians theta) in
  mat4 (map Num
    [c; (- s)%num; ofZ 0; ofZ 0;
     s; c; ofZ 0; ofZ 0;
     ofZ 0; ofZ 0; ofZ 1; ofZ 0;
     ofZ 0; ofZ 0; ofZ 0; ofZ 1]).

Definition scalingMatrix (x : arg) (y z : T) : Js array :=
  xyz <- three x y z ;;
  let '(x, y, z) := xyz in
  let result := mat4 [] in
  result <- setEntry result 0 0 x ;;
  result <- setEntry result 1 1 y ;;
  result <- setEntry result 2 2 z ;;
  ret result.

(** ** Model-view matrix *)

Definition viewMatrixAt (eye at_ up : array) : Js (option array) :=
  if negb (length_of eye =? 3) then
    console_error WebGL_Utilities
      "viewMatrixAt(): First parameter [eye] must be in the form of a vec3." ;;;
    ret None
  else if negb (length_of at_ =? 3) then
    console_error WebGL_Utilities
      "viewMatrixAt(): First parameter [at] must be in the form of a vec3." ;;;
    ret None
  else if negb (length_of up =? 3) then
    console_error WebGL_Utilities
      "viewMatrixAt(): First parameter [up] must be in the form of a vec3." ;;;
    ret None
  else
    same <- linearEquivalence eye at_ ;;
    if (same : bool) then ret (Some (mat4 []))
    else
      d <- linearSubtract at_ eye ;;
      d <- defined d ;;
      d <- numbers d ;;
      v <- normalizeVectors d false ;;
      up <- numbers up ;;
      eye <- numbers eye ;;
      n <- crossProduct v (Some up) ;;
      n <- defined n ;;
      n <- normalizeVectors n false ;;
      u <- crossProduct n v ;;
      u <- defined u ;;
      u <- normalizeVectors u false ;;
      v <- defined v ;;
      let v := negateElements v in
      n <- defined n ;;
      rn <- lift1 neg (dotProduct n eye) ;;
      u <- defined u ;;
      ru <- lift1 neg (dotProduct u eye) ;;
      rv <- lift1 neg (dotProduct v eye) ;;
      ret (Some (mat4
        [Arr (vec4 [Arr n; Num rn]);
         Arr (vec4 [Arr u; Num ru]);
         Arr (vec4 [Arr v; Num rv]);
         Arr (vec4 [])])).

(** ** Projection matrices *)

Definition buildOrthographicMatrix (left right bottom top near far : T)
  : Js array :=
  if (left == right)%num then throw (Message "ortho(): left and right are equal")
  else if (bottom == top)%num then throw (Message "ortho(): bottom and top are equal")
  else if (near == far)%num then throw (Message "ortho(): near and far are equal")
  else
    let w := (right - left)%num in
    let h := (top - bottom)%num in
    let d := (far - near)%num in
    let result := mat4 [] in
    result <- setEntry result 0 0 (ofZ 2 / w)%num ;;
    result <- setEntry result 1 1 (ofZ 2 / h)%num ;;
    result <- setEntry result 2 2 (- ofZ 2 / d)%num ;;
    result <- setEntry result 0 3 (- (left + right) / w)%num ;;
    result <- setEntry result 1 3 (- (top + bottom) / h)%num ;;
    result <- setEntry result 2 3 (- (near + far) / d)%num ;;
    ret result.

Definition buildPerspectiveMatrix (fovY aspect near far : T) : Js array :=
  let f := (ofZ 1 / Math_tan (degreesToRadians fovY / ofZ 2))%num in
  let d := (far - near)%num in
  let result := mat4 [] in
  result <- setEntry result 0 0 (f / aspect)%num ;;
  result <- setEntry result 1 1 f ;;
  result <- setEntry result 2 2 (- (near + far) / d)%num ;;
  result <- setEntry result 2 3 ((- ofZ 2 * near * far) / d)%num ;;
  result <- setEntry result 3 2 (- ofZ 1)%num ;;
  result <- setEntry result 3 3 (ofZ 0) ;;
  ret result.

(** ** Vector and matrix functions *)

(** [s * u[i]].  When [u[i]] is a row the operator first converts it to a
    number through its text: two or more entries, separated by commas,
    read as no number at all. *)
Definition linearScale `{NotANumber T} (s : T) (u : array) : Js array :=
  match u with
  | Vector xs => ret (Vector (map (fun x => s * x)%num xs))
  | Nested _ rows =>
      result <- push_loop (length rows) (fun i =>
        match rows !! i with
        | Some (_ :: _ :: _) => ret (s * NaN)%num
        | _ => unmodelled
        end) ;;
      ret (Vector result)
  end.

(** [floats[idx++] = x] for each [x] in turn; a typed array has a fixed
    length and ignores a store past its end. *)
Fixpoint store (floats : list T) (idx : nat) (xs : list T) : list T :=
  match xs with
  | [] => floats
  | x :: xs' => store (<[idx := toFloat32 x]> floats) (S idx) xs'
  end.

(** The result is the content of the [Float32Array]. *)
Definition linearFlatten (v : array) : Js (list T) :=
  v <- (if matrix_of v then t <- transposeMatrix v ;; defined t else ret v) ;;
  let n := length_of v in
  match v with
  | Nested _ ((r :: _) as rows) =>
      let n := n * length r in
      let floats := replicate n (ofZ 0) in
      ret (store floats 0 (concat rows))
  | Nested _ [] => ret []
  | Vector xs =>
      let floats := replicate n (ofZ 0) in
      ret (store floats 0 xs)
  end.

(** ** Determinants *)

Declare Scope expr_scope.
Delimit Scope expr_scope with expr.
Local Notation "x + y" := (lift2 add x y) : expr_scope.
Local Notation "x - y" := (lift2 sub x y) : expr_scope.
Local Notation "x * y" := (lift2 mul x y) : expr_scope.
Local Notation "x / y" := (lift2 div x y) : expr_scope.
Local Notation "- x" := (lift1 neg x) : expr_scope.
Local Notation "m .[ i ][ j ]" := (entry m i j)
  (at level 1, left associativity, format "m .[ i ][ j ]") : expr_scope.

Definition det2 (m : array) : Js T :=
  (m.[0][0] * m.[1][1] - m.[0][1] * m.[1][0])%expr.

Definition det3 (m : array) : Js T :=
  (m.[0][0] * m.[1][1] * m.[2][2] +
   m.[0][1] * m.[1][2] * m.[2][0] +
   m.[0][2] * m.[2][1] * m.[1][0] -
   m.[2][0] * m.[1][1] * m.[0][2] -
   m.[1][0] * m.[0][1] * m.[2][2] -
   m.[0][0] * m.[1][2] * m.[2][1])%expr.

(** [vec2(a, b)] and [vec3(a, b, c)] on computed arguments. *)
Definition vec2_of (a b : Js T) : Js (list T) :=
  x <- a ;; y <- b ;; ret (vec2 [Num x; Num y]).
Definition vec3_of (a b c : Js T) : Js (list T) :=
  x <- a ;; y <- b ;; z <- c ;; ret (vec3 [Num x; Num y; Num z]).

(** The array literals [[r0, r1]] and [[r0, r1, r2]]: no [matrix]
    property. *)
Definition rows2 (r0 r1 : Js (list T)) : Js array :=
  x <- r0 ;; y <- r1 ;; ret (Nested false [x; y]).
Definition rows3 (r0 r1 r2 : Js (list T)) : Js array :=
  x <- r0 ;; y <- r1 ;; z <- r2 ;; ret (Nested false [x; y; z]).

Definition det4 (m : array) : Js T :=
  (m0 <- rows3 (vec3_of m.[1][1] m.[1][2] m.[1][3])
               (vec3_of m.[2][1] m.[2][2] m.[2][3])
               (vec3_of m.[3][1] m.[3][2] m.[3][3]) ;;
   m1 <- rows3 (vec3_of m.[1][0] m.[1][2] m.[1][3])
               (vec3_of m.[2][0] m.[2][2] m.[2][3])
               (vec3_of m.[3][0] m.[3][2] m.[3][3]) ;;
   m2 <- rows3 (vec3_of m.[1][0] m.[1][1] m.[1][3])
               (vec3_of m.[2][0] m.[2][1] m.[2][3])
               (vec3_of m.[3][0] m.[3][1] m.[3][3]) ;;
   m3 <- rows3 (vec3_of m.[1][0] m.[1][1] m.[1][2])
               (vec3_of m.[2][0] m.[2][1] m.[2][2])
               (vec3_of m.[3][0] m.[3][1] m.[3][2]) ;;
   m.[0][0] * det3 m0 -
   m.[0][1] * det3 m1 +
   m.[0][2] * det3 m2 -
   m.[0][3] * det3 m3)%expr.

Definition calculateDeterminant (m : array) : Js (option T) :=
  (if negb (matrix_of m) then
     console_error WebGL_Utilities "calculateDeterminant(): Variable is not a matrix."
   else ret tt) ;;;
  if length_of m =? 2 then d <- det2 m ;; ret (Some d)
  else if length_of m =? 3 then d <- det3 m ;; ret (Some d)
  else if length_of m =? 4 then d <- det4 m ;; ret (Some d)
  else ret None.

(** ** Inverses *)

Definition set_matrix (a : array) : array :=
  match a with
  | Vector xs => a
  | Nested _ rows => Nested true rows
  end.

Definition inverse2 (m : array) : Js array :=
  (let a := mat2 [] in
   d <- det2 m ;;
   let d := ret d in
   a <- assign a 0 0 (m.[1][1] / d) ;;
   a <- assign a 0 1 (- m.[0][1] / d) ;;
   a <- assign a 1 0 (- m.[1][0] / d) ;;
   a <- assign a 1 1 (m.[0][0] / d) ;;
   ret (set_matrix a))%expr.

Definition inverse3 (m : array) : Js array :=
  (let a := mat3 [] in
   d <- det3 m ;;
   let d := ret d in
   a00 <- rows2 (vec2_of m.[1][1] m.[1][2]) (vec2_of m.[2][1] m.[2][2]) ;;
   a01 <- rows2 (vec2_of m.[1][0] m.[1][2]) (vec2_of m.[2][0] m.[2][2]) ;;
   a02 <- rows2 (vec2_of m.[1][0] m.[1][1]) (vec2_of m.[2][0] m.[2][1]) ;;
   a10 <- rows2 (vec2_of m.[0][1] m.[0][2]) (vec2_of m.[2][1] m.[2][2]) ;;
   a11 <- rows2 (vec2_of m.[0][0] m.[0][2]) (vec2_of m.[2][0] m.[2][2]) ;;
   a12 <- rows2 (vec2_of m.[0][0] m.[0][1]) (vec2_of m.[2][0] m.[2][1]) ;;
   a20 <- rows2 (vec2_of m.[0][1] m.[0][2]) (vec2_of m.[1][1] m.[1][2]) ;;
   a21 <- rows2 (vec2_of m.[0][0] m.[0][2]) (vec2_of m.[1][0] m.[1][2]) ;;
   a22 <- rows2 (vec2_of m.[0][0] m.[0][1]) (vec2_of m.[1][0] m.[1][1]) ;;
   a <- assign a 0 0 (det2 a00 / d) ;;
   a <- assign a 0 1 (- det2 a10 / d) ;;
   a <- assign a 0 2 (det2 a20 / d) ;;
   a <- assign a 1 0 (- det2 a01 / d) ;;
   a <- assign a 1 1 (det2 a11 / d) ;;
   a <- assign a 1 2 (- det2 a21 / d) ;;
   a <- assign a 2 0 (det2 a02 / d) ;;
   a <- assign a 2 1 (- det2 a12 / d) ;;
   a <- assign a 2 2 (det2 a22 / d) ;;
   ret a)%expr.

Definition inverse4 (m : array) : Js array :=
  (let a := mat4 [] in
   d <- det4 m ;;
   let d := ret d in
   a00 <- rows3 (vec3_of m.[1][1] m.[1][2] m.[1][3])
                (vec3_of m.[2][1] m.[2][2] m.[2][3])
                (vec3_of m.[3][1] m.[3][2] m.[3][3]) ;;
   a01 <- rows3 (vec3_of m.[1][0] m.[1][2] m.[1][3])
                (vec3_of m.[2][0] m.[2][2] m.[2][3])
                (vec3_of m.[3][0] m.[3][2] m.[3][3]) ;;
   a02 <- rows3 (vec3_of m.[1][0] m.[1][1] m.[1][3])
                (vec3_of m.[2][0] m.[2][1] m.[2][3])
                (vec3_of m.[3][0] m.[3][1] m.[3][3]) ;;
   a03 <- rows3 (vec3_of m.[1][0] m.[1][1] m.[1][2])
                (vec3_of m.[2][0] m.[2][1] m.[2][2])
                (vec3_of m.[3][0] m.[3][1] m.[3][2]) ;;
   a10 <- rows3 (vec3_of m.[0][1] m.[0][2] m.[0][3])
                (vec3_of m.[2][1] m.[2][2] m.[2][3])
                (vec3_of m.[3][1] m.[3][2] m.[3][3]) ;;
   a11 <- rows3 (vec3_of m.[0][0] m.[0][2] m.[0][3])
                (vec3_of m.[2][0] m.[2][2] m.[2][3])
                (vec3_of m.[3][0] m.[3][2] m.[3][3]) ;;
   a12 <- rows3 (vec3_of m.[0][0] m.[0][1] m.[0][3])
                (vec3_of m.[2][0] m.[2][1] m.[2][3])
                (vec3_of m.[3][0] m.[3][1] m.[3][3]) ;;
   a13 <- rows3 (vec3_of m.[0][0] m.[0][1] m.[0][2])
                (vec3_of m.[2][0] m.[2][1] m.[2][2])
                (vec3_of m.[3][0] m.[3][1] m.[3][2]) ;;
   a20 <- rows3 (vec3_of m.[0][1] m.[0][2] m.[0][3])
                (vec3_of m.[1][1] m.[1][2] m.[1][3])
                (vec3_of m.[3][1] m.[3][2] m.[3][3]) ;;
   a21 <- rows3 (vec3_of m.[0][0] m.[0][2] m.[0][3])
                (vec3_of m.[1][0] m.[1][2] m.[1][3])
                (vec3_of m.[3][0] m.[3][2] m.[3][3]) ;;
   a22 <- rows3 (vec3_of m.[0][0] m.[0][1] m.[0][3])
                (vec3_of m.[1][0] m.[1][1] m.[1][3])
                (vec3_of m.[3][0] m.[3][1] m.[3][3]) ;;
   a23 <- rows3 (vec3_of m.[0][0] m.[0][1] m.[0][2])
                (vec3_of m.[1][0] m.[1][1] m.[1][2])
                (vec3_of m.[3][0] m.[3][1] m.[3][2]) ;;
   a30 <- rows3 (vec3_of m.[0][1] m.[0][2] m.[0][3])
                (vec3_of m.[1][1] m.[1][2] m.[1][3])
                (vec3_of m.[2][1] m.[2][2] m.[2][3]) ;;
   a31 <- rows3 (vec3_of m.[0][0] m.[0][2] m.[0][3])
                (vec3_of m.[1][0] m.[1][2] m.[1][3])
                (vec3_of m.[2][0] m.[2][2] m.[2][3]) ;;
   a32 <- rows3 (vec3_of m.[0][0] m.[0][1] m.[0][3])
                (vec3_of m.[1][0] m.[1][1] m.[1][3])
                (vec3_of m.[2][0] m.[2][1] m.[2][3]) ;;
   a33 <- rows3 (vec3_of m.[0][0] m.[0][1] m.[0][2])
                (vec3_of m.[1][0] m.[1][1] m.[1][2])
                (vec3_of m.[2][0] m.[2][1] m.[2][2]) ;;
   a <- assign a 0 0 (det3 a00 / d) ;;
   a <- assign a 0 1 (- det3 a10 / d) ;;
   a <- assign a 0 2 (det3 a20 / d) ;;
   a <- assign a 0 3 (- det3 a30 / d) ;;
   a <- assign a 1 0 (- det3 a01 / d) ;;
   a <- assign a 1 1 (det3 a11 / d) ;;
   a <- assign a 1 2 (- det3 a21 / d) ;;
   a <- assign a 1 3 (det3 a31 / d) ;;
   a <- assign a 2 0 (det3 a02 / d) ;;
   a <- assign a 2 1 (- det3 a12 / d) ;;
   a <- assign a 2 2 (det3 a22 / d) ;;
   a <- assign a 2 3 (- det3 a32 / d) ;;
   a <- assign a 3 0 (- det3 a03 / d) ;;
   a <- assign a 3 1 (det3 a13 / d) ;;
   a <- assign a 3 2 (- det3 a23 / d) ;;
   a <- assign a 3 3 (det3 a33 / d) ;;
   ret a)%expr.

Definition calculateInverseMatrix (m : array) : Js (option array) :=
  (if negb (matrix_of m) then
     console_error WebGL_Utilities "calculateInverseMatrix(): Variable is not a matrix."
   else ret tt) ;;;
  if length_of m =? 2 then a <- inverse2 m ;; ret (Some a)
  else if length_of m =? 3 then a <- inverse3 m ;; ret (Some a)
  else if length_of m =? 4 then a <- inverse4 m ;; ret (Some a)
  else ret None.

Definition normalizeMatrix (m : array) (flag : bool) : Js (option array) :=
  t <- transposeMatrix m ;;
  t <- defined t ;;
  a <- calculateInverseMatrix t ;;
  if negb flag then ret a
  else
    let b := mat3 [] in
    b <- for_loop 3 (fun b i =>
           for_loop 3 (fun b j =>
             a <- defined a ;;
             assign b i j (entry a i j)) b) b ;;
    ret (Some b).

End Library.

Arguments array T : clear implicits.
Arguments arg T : clear implicits.

(** ** The rest of the vector functions *)

Section Mix.
Context {T : Type} `{Number T}.

Local Open Scope js_scope.

(** [s] is any value: [typeof s !== "number"] holds of an array. *)
Definition mixVectors (u v : list T) (s : arg T) : Js (option (list T)) :=
  match s with
  | Arr _ =>
      console_error WebGL_Utilities
        "mixVectors()): The third parameter must be a number." ;;;
      ret None
  | Num s =>
      if negb (length u =? length v) then
        console_error WebGL_Utilities
          "mixVectors()): Vectors are not the same dimension." ;;;
        ret None
      else
        result <- push_loop (length u) (fun i =>
          lift2 add (lift2 mul (ret (ofZ 1 - s)%num) (item u i))
                    (lift2 mul (ret s) (item v i))) ;;
        ret (Some result)
  end.

End Mix.

(** ** The cube of the demo *)

Section Cube.
Context {host : Binary64.Host}.

Local Open Scope js_scope.

(** The two global arrays that [quad] appends to. *)
Record scene : Type := { points : list (list float); colors : list (list float) }.

Definition NumVertices : nat := 36.

Definition vertices : list (list float) :=
  [vec4 [Num (-0.5); Num (-0.5); Num 0.5; Num 1];
   vec4 [Num (-0.5); Num 0.5; Num 0.5; Num 1];
   vec4 [Num 0.5; Num 0.5; Num 0.5; Num 1];
   vec4 [Num 0.5; Num (-0.5); Num 0.5; Num 1];
   vec4 [Num (-0.5); Num (-0.5); Num (-0.5); Num 1];
   vec4 [Num (-0.5); Num 0.5; Num (-0.5); Num 1];
   vec4 [Num 0.5; Num 0.5; Num (-0.5); Num 1];
   vec4 [Num 0.5; Num (-0.5); Num (-0.5); Num 1]]%float.

Definition vertexColors : list (list float) :=
  [[0; 0; 0; 1];
   [1; 0; 0; 1];
   [1; 1; 0; 1];
   [0; 1; 0; 1];
   [0; 0; 1; 1];
   [1; 0; 1; 1];
   [0; 1; 1; 1];
   [1; 1; 1; 1]]%float.

(** An index past the end of a table reads [undefined], which is then
    pushed. *)
Definition quad (a b c d : nat) (st : scene) : Js scene :=
  let indices := [a; b; c; a; c; d] in
  for_each indices (fun st i =>
    match vertices !! i, vertexColors !! a with
    | Some p, Some q =>
        ret {| points := points st ++ [p]; colors := colors st ++ [q] |}
    | _, _ => unmodelled
    end) st.

Definition colorCube (st : scene) : Js scene :=
  st <- quad 1 0 3 2 st ;;
  st <- quad 2 3 7 6 st ;;
  st <- quad 3 0 4 7 st ;;
  st <- quad 6 5 1 2 st ;;
  st <- quad 4 5 6 7 st ;;
  quad 5 4 0 1 st.

(** A point in homogeneous coordinates: four components, the last is 1. *)
Definition homogeneous_point (p : list float) : Prop :=
  length p = 4 /\ p !! 3 = Some 1%float.

End Cube.

(** ** Shapes *)

Section Shapes.
Context {T : Type}.

(** [d] rows of [d] entries each. *)
Definition square (d : nat) (rows : list (list T)) : bool :=
  (length rows =? d) && forallb (fun r => length r =? d) rows.

(** A value that carries the matrix tag and whose rows are all as long as
    the number of rows. *)
Definition tagged_square (m : array T) : bool :=
  match m with
  | Nested true rows => square (length rows) rows
  | _ => false
  end.

Definition dimension (d : nat) : bool := (d =? 2) || (d =? 3) || (d =? 4).

(** The entries of a matrix. *)
Definition entries (m : array T) : list T :=
  match m with
  | Vector xs => xs
  | Nested _ rows => concat rows
  end.

(** The operands that addition and subtraction refuse: two vectors of
    different lengths, two matrices with different numbers of rows or with
    rows of different lengths, a matrix and a value that is not a matrix. *)
Definition mismatched (u v : array T) : bool :=
  match u, v with
  | Vector us, Vector vs => negb (length us =? length vs)
  | Nested true ur, Nested true vr =>
      negb (length ur =? length vr) || negb (all2 same_length ur vr)
  | Nested true _, _ | _, Nested true _ => true
  | _, _ => false
  end.

(** A diagnostic was written and the call returned [undefined]. *)
Definition reported_undefined {A} (r : Js (option A)) : Prop :=
  exists msg, r = ([msg], Normal None).

(** The entry in row [r] and column [c]. *)
Definition cell (rows : list (list T)) (r c : nat) : option T :=
  rows !! r ≫= (.!! c).

(** Every value that the call may return has the property. *)
Definition produces {A} (r : Js A) (P : A -> Prop) : Prop :=
  forall log a, r = (log, Normal a) -> P a.

(** A tagged square matrix of the given dimension. *)
Definition matrix_of_dimension (d : nat) (m : array T) : Prop :=
  tagged_square m = true /\ length_of m = d.

Definition undefined_or {A} (P : A -> Prop) (o : option A) : Prop :=
  match o with
  | Some a => P a
  | None => True
  end.

End Shapes.

Section Identity.
Context {T : Type} `{Number T}.

(** The [d]x[d] identity: 1 on the diagonal, 0 elsewhere. *)
Definition identity (d : nat) : array T :=
  Nested true
    (map (fun i => map (fun j => if i =? j then ofZ 1 else ofZ 0) (seq 0 d))
         (seq 0 d)).

(** The constructor of dimension [d]. *)
Definition mat (d : nat) (args : list (arg T)) : array T :=
  match d with
  | 2 => mat2 args
  | 3 => mat3 args
  | _ => mat4 args
  end.

End Identity.

(** How a call completes. *)
Definition throws {A} (r : Js A) : Prop := exists e, r.2 = Throw e.
Definition returns {A} (r : Js A) : Prop := exists a, r.2 = Normal a.

(** *** On binary64 numbers *)

Definition all_zero (u : list float) : bool :=
  forallb (fun x => x =? 0)%float u.


(** [a] is [x], up to the sign of a zero. *)
Definition up_to_zero_sign (x a : float) : Prop :=
  a = x \/ ((a =? 0)%float = true /\ (x =? 0)%float = true).

(** [x] with a negative zero turned into the positive one. *)
Definition positive_zero (x : float) : float :=
  if (x =? 0)%float then 0%float else x.

(** What [rotateMatrix] builds from an axis of NaN components. *)
Definition rotation_of_nan : array float :=
  Nested true
    [[nan; nan; nan; 0]; [nan; nan; nan; 0]; [nan; nan; nan; 0]; [0; 0; 0; 1]]%float.

(** *** The adjugate, as the specification words it *)

(** The matrix without row [i] and column [j]. *)
Definition minor (m : list (list R)) (i j : nat) : list (list R) :=
  map (delete j) (delete i m).

(** The determinant of an [n]x[n] matrix, expanded along its first row. *)
Fixpoint determinant (n : nat) (m : list (list R)) : R :=
  match n with
  | O => 1%R
  | S n' =>
      fold_right Rplus 0%R
        (map (fun j => ((-1) ^ j * default 0 (cell m 0 j)
                        * determinant n' (minor m 0 j))%R)
             (seq 0 n))
  end.

(** The signed cofactor of the transposed position. *)
Definition adjugate (d : nat) (m : list (list R)) (i j : nat) : R :=
  ((-1) ^ (i + j) * determinant (d - 1) (minor m j i))%R.

(** *** Vocabulary of the further properties *)

Section Vocabulary.
Context {T : Type} `{Number T}.

(** The sum of the products of the components, added up from [0] in the
    order of the indices. *)
Definition dot (u v : list T) : T :=
  fold_left add (zip_with mul u v) (ofZ 0).

(** The entry in row [r] and column [c], or [0] where there is none. *)
Definition get (rows : list (list T)) (r c : nat) : T :=
  default (ofZ 0) (cell rows r c).

(** Rows and columns exchanged, for [n] rows. *)
Definition transpose (rows : list (list T)) : list (list T) :=
  map (fun i => map (fun j => get rows j i) (seq 0 (length rows)))
      (seq 0 (length rows)).

(** [n] rows of [k] entries each. *)
Definition rectangular (n k : nat) (rows : list (list T)) : bool :=
  (length rows =? n) && forallb (fun r => length r =? k) rows.

End Vocabulary.

(** ** Proofs *)

(** Splits the lists that a shape hypothesis [H] measures into their
    entries. *)
Ltac shape H :=
  repeat match type of H with
         | context [length ?l] =>
             is_var l; destruct l; cbn in H; try discriminate H
         end.

Ltac dimensions H :=
  unfold dimension in H;
  repeat match type of H with
         | context [?d =? _] =>
             is_var d; destruct d; cbn in H; try discriminate H
         end.

Lemma bind_ret {A B} (a : A) (k : A -> Js B) : bind (ret a) k = k a.
Proof. unfold bind, ret. destruct (k a) as [log r]. reflexivity. Qed.

Lemma bind_Normal {A B} (a : A) (k : A -> Js B) : bind ([], Normal a) k = k a.
Proof. exact (bind_ret a k). Qed.

Lemma bind_console_error {A} (prefix msg : string) (k : Js A) :
  bind (console_error prefix msg) (fun _ => k)
  = (String.append prefix (String.append " " msg) :: k.1, k.2).
Proof. unfold bind, console_error. destruct k as [log r]. reflexivity. Qed.

Lemma lift1_ret {T} (f : T -> T) (x : T) : lift1 f (ret x) = ret (f x).
Proof. reflexivity. Qed.

Lemma lift2_ret {T} (f : T -> T -> T) (x y : T) :
  lift2 f (ret x) (ret y) = ret (f x y).
Proof. reflexivity. Qed.

(** ** The orthographic builder *)

Section Orthographic.
Context {T : Type} `{Number T}.
Variables left right bottom top near far : T.

Let degenerate : bool :=
  ((left == right) || (bottom == top) || (near == far))%num.

Lemma buildOrthographicMatrix_degenerate :
  degenerate = true ->
  exists msg, buildOrthographicMatrix left right bottom top near far
              = ([], Throw (Message msg)).
Proof.
  unfold degenerate, buildOrthographicMatrix.
  destruct (left == right)%num; [eauto|].
  destruct (bottom == top)%num; [eauto|].
  destruct (near == far)%num; [eauto|discriminate].
Qed.

Lemma buildOrthographicMatrix_distinct :
  degenerate = false ->
  exists m, buildOrthographicMatrix left right bottom top near far
            = ([], Normal m).
Proof.
  unfold degenerate, buildOrthographicMatrix.
  destruct (left == right)%num; [discriminate|].
  destruct (bottom == top)%num; [discriminate|].
  destruct (near == far)%num; [discriminate|].
  intros _. eexists. reflexivity.
Qed.

(** C3: [buildOrthographicMatrix] throws exactly when [left == right],
    [bottom == top] or [near == far]; on every other input it returns
    normally. *)
Theorem buildOrthographicMatrix_throws_iff :
  (throws (buildOrthographicMatrix left right bottom top near far)
   <-> ((left == right) || (bottom == top) || (near == far))%num = true)
  /\ (returns (buildOrthographicMatrix left right bottom top near far)
      <-> ((left == right) || (bottom == top) || (near == far))%num = false).
Proof.
  fold degenerate. destruct degenerate eqn:E.
  - destruct (buildOrthographicMatrix_degenerate E) as [msg ->].
    split; split; try done.
    + intros _. eexists. reflexivity.
    + intros [m Hm]. discriminate Hm.
  - destruct (buildOrthographicMatrix_distinct E) as [m ->].
    split; split; try done.
    + intros [e He]. discriminate He.
    + intros _. eexists. reflexivity.
Qed.

End Orthographic.

(** ** Operands of mismatched shape *)

Section Mismatched.
Context {T : Type} `{Number T}.

Lemma elementwise_rows_mismatched op msg : forall ur vr result : list (list T),
  length ur = length vr -> all2 same_length ur vr = false ->
  reported_undefined (elementwise_rows op msg ur vr result).
Proof.
  induction ur as [|r ur IH]; intros vr result Hlen Hrows; [discriminate|].
  destruct vr as [|s vr]; [discriminate|]. cbn in Hrows. cbn [elementwise_rows].
  destruct (same_length r s); cbn [negb].
  - apply IH; [cbn in Hlen; lia|exact Hrows].
  - unfold reported_undefined. rewrite bind_console_error. eauto.
Qed.

Lemma elementwise_mismatched op s1 s2 s3 s4 (u v : array T) :
  mismatched u v = true ->
  reported_undefined (elementwise op s1 s2 s3 s4 u v).
Proof.
  unfold elementwise.
  destruct u as [us|[] ur], v as [vs|[] vr]; cbn [mismatched length_of];
    intros Hm; try discriminate Hm.
  all: try (unfold reported_undefined; try rewrite Hm;
            rewrite bind_console_error; eauto; fail).
  destruct (Nat.eqb_spec (length ur) (length vr)) as [Hlen|]; cbn [negb] in *.
  - apply elementwise_rows_mismatched; [exact Hlen|].
    apply negb_true_iff. exact Hm.
  - unfold reported_undefined. rewrite bind_console_error. eauto.
Qed.

(** C6: on two vectors of different lengths, two matrices of different
    dimensions (in the number of rows or in the length of a row), or a
    matrix and a value that is not one, [linearAddition] and
    [linearSubtract] write one diagnostic and return [undefined]. *)
Theorem linearAddition_linearSubtract_mismatched (u v : array T) :
  mismatched u v = true ->
  reported_undefined (linearAddition u v)
  /\ reported_undefined (linearSubtract u v).
Proof.
  intros Hm. split; apply elementwise_mismatched, Hm.
Qed.

End Mismatched.

(** Adding a 3-vector to a 4-vector. *)
Lemma linearAddition_linearSubtract_mismatched_witness :
  reported_undefined
    (linearAddition (Vector [1; 2; 3]%R) (Vector [1; 2; 3; 4]%R))
  /\ reported_undefined
       (linearSubtract (Vector [1; 2; 3]%R) (Vector [1; 2; 3; 4]%R)).
Proof.
  apply (linearAddition_linearSubtract_mismatched
           (Vector [1; 2; 3]%R) (Vector [1; 2; 3; 4]%R)).
  reflexivity.
Defined.

(** ** Flattening *)

Section Flatten.
Context {T : Type} `{Number T}.

Lemma store_fills (pre zs xs : list T) :
  length zs = length xs ->
  store (pre ++ zs) (length pre) xs = pre ++ map toFloat32 xs.
Proof.
  revert pre zs. induction xs as [|x xs IH]; intros pre zs Hlen.
  - destruct zs; [|discriminate]. reflexivity.
  - destruct zs as [|z zs]; [discriminate|]. cbn [store map].
    replace (length pre) with (length pre + 0) at 1 by lia.
    rewrite insert_app_r. cbn [list_insert insert].
    change (pre ++ toFloat32 x :: zs) with (pre ++ [toFloat32 x] ++ zs).
    rewrite app_assoc.
    replace (S (length pre)) with (length (pre ++ [toFloat32 x]))
      by (rewrite length_app; cbn; lia).
    rewrite IH by (cbn in Hlen; lia).
    rewrite <- app_assoc. reflexivity.
Qed.

Lemma linearFlatten_vector (xs : list T) :
  linearFlatten (Vector xs) = ([], Normal (map toFloat32 xs)).
Proof.
  unfold linearFlatten. cbn [matrix_of]. rewrite bind_ret. cbn [length_of].
  pose proof (store_fills [] (replicate (length xs) (ofZ 0)) xs
                (length_replicate _ _)) as E.
  cbn [app length] in E. rewrite E. reflexivity.
Qed.

(** C5: flattening a vector keeps its length and the order of its
    components; flattening a tagged [d]x[d] matrix gives the [d * d]
    entries of its transpose row by row, that is, the matrix column by
    column, each entry converted to a 32-bit float. *)
Theorem linearFlatten_column_major :
  (forall xs : list T,
      exists floats,
        linearFlatten (Vector xs) = ([], Normal floats)
        /\ length floats = length xs
        /\ forall i, floats !! i = toFloat32 <$> xs !! i)
  /\ (forall d (rows : list (list T)),
         dimension d = true -> square d rows = true ->
         exists t floats,
           transposeMatrix (Nested true rows) = ([], Normal (Some (Nested true t)))
           /\ linearFlatten (Nested true rows) = ([], Normal floats)
           /\ floats = map toFloat32 (concat t)
           /\ length floats = d * d
           /\ (forall r c, r < d -> c < d -> cell t c r = cell rows r c)
           /\ (forall r c, r < d -> c < d ->
                 floats !! (c * d + r) = toFloat32 <$> cell rows r c)).
Proof.
  split.
  - intros xs. exists (map toFloat32 xs). split; [apply linearFlatten_vector|].
    split; [apply length_map|]. intros i. apply list_lookup_fmap.
  - intros d rows Hd Hs. unfold square in Hs. dimensions Hd; shape Hs.
    all: eexists; eexists.
    all: split; [reflexivity|]; split; [reflexivity|]; split; [reflexivity|].
    all: split; [reflexivity|].
    all: split; intros r c Hr Hc.
    all: repeat (destruct r as [|r]; [|try lia]);
         repeat (destruct c as [|c]; [|try lia]); reflexivity.
Qed.

End Flatten.

(** ** The matrix tag *)

Section Tag.
Context {T : Type} `{Number T}.

Implicit Types (m u v : array T) (rows : list (list T)).

Lemma bind_inv {A B} (c : Js A) (k : A -> Js B) log b :
  bind c k = (log, Normal b) ->
  exists a l1 l2, c = (l1, Normal a) /\ k a = (l2, Normal b).
Proof.
  unfold bind. destruct c as [l1 [a|e|]]; try discriminate.
  destruct (k a) as [l2 r] eqn:E. intros [= <- ->]. eauto.
Qed.

Lemma square_iff d rows :
  square d rows = true <-> length rows = d /\ Forall (fun r => length r = d) rows.
Proof.
  unfold square. rewrite andb_true_iff, Nat.eqb_eq, forallb_forall, Forall_forall.
  split; intros [Hl Hr]; (split; [exact Hl|]); intros r Hin.
  - apply Nat.eqb_eq, Hr. apply list_elem_of_In, Hin.
  - apply Nat.eqb_eq, Hr. apply list_elem_of_In, Hin.
Qed.

Lemma tagged_square_iff m :
  tagged_square m = true <->
  exists rows, m = Nested true rows
               /\ Forall (fun r => length r = length rows) rows.
Proof.
  split.
  - destruct m as [xs|[] rows]; try discriminate. cbn. intros Hs.
    apply square_iff in Hs as [_ Hs]. eauto.
  - intros (rows & -> & Hs). cbn. apply square_iff. auto.
Qed.

(** *** Loops *)

Lemma for_each_push_inv {A} (P : nat -> A -> Prop) (value : nat -> Js A) len :
  forall s (acc : list A) log l,
    for_each (seq s len)
      (fun result i => bind (value i) (fun x => ret (result ++ [x]))) acc
    = (log, Normal l) ->
    length acc = s ->
    (forall i x, acc !! i = Some x -> P i x) ->
    (forall i lg x, s <= i < s + len -> value i = (lg, Normal x) -> P i x) ->
    length l = s + len /\ forall i x, l !! i = Some x -> P i x.
Proof.
  induction len as [|len IH]; intros s acc log l Hrun Hacc HP Hv.
  - cbn in Hrun. injection Hrun as _ <-. split; [lia|exact HP].
  - cbn [seq for_each] in Hrun.
    apply bind_inv in Hrun as (acc' & l1 & l2 & Hstep & Hrun).
    apply bind_inv in Hstep as (x & l3 & l4 & Hx & Hret).
    injection Hret as _ <-.
    apply IH in Hrun as [Hlen Hall].
    + split; [lia|exact Hall].
    + rewrite length_app. cbn. lia.
    + intros i y Hi. apply lookup_app_Some in Hi as [Hi|[Hge Hi]].
      * eauto.
      * apply list_lookup_singleton_Some in Hi as [Hi ->].
        replace i with s by lia. apply (Hv s l3). lia. exact Hx.
    + intros i lg y Hi. apply Hv. lia.
Qed.

Lemma push_loop_inv {A} (P : nat -> A -> Prop) n (value : nat -> Js A) log l :
  push_loop n value = (log, Normal l) ->
  (forall i lg x, i < n -> value i = (lg, Normal x) -> P i x) ->
  length l = n /\ forall i x, l !! i = Some x -> P i x.
Proof.
  intros Hrun Hv.
  apply (for_each_push_inv P value n 0 [] log l Hrun); [reflexivity| |].
  - intros i x Hi. discriminate Hi.
  - intros i lg x Hi. apply Hv. lia.
Qed.

(** *** Constructors *)

Lemma length_vec2 args : length (vec2 args) = 2.
Proof.
  unfold vec2. destruct (objectToArray args) as [|? [|? [|? ?]]]; reflexivity.
Qed.

Lemma length_vec3 args : length (vec3 args) = 3.
Proof.
  unfold vec3.
  destruct (objectToArray args) as [|? [|? [|? [|? ?]]]]; reflexivity.
Qed.

Lemma length_vec4 args : length (vec4 args) = 4.
Proof.
  unfold vec4.
  destruct (objectToArray args) as [|? [|? [|? [|? [|? ?]]]]]; reflexivity.
Qed.

Lemma mat2_matrix args : matrix_of_dimension 2 (mat2 args).
Proof.
  unfold matrix_of_dimension, mat2.
  destruct (objectToArray args) as [|? [|? ?]]; cbn [tagged_square length_of length];
    unfold square; cbn [forallb length]; rewrite ?length_vec2; done.
Qed.

Lemma mat3_matrix args : matrix_of_dimension 3 (mat3 args).
Proof.
  unfold matrix_of_dimension, mat3.
  destruct (objectToArray args) as [|? [|? ?]]; cbn [tagged_square length_of length];
    unfold square; cbn [forallb length]; rewrite ?length_vec3; done.
Qed.

Lemma mat4_matrix args : matrix_of_dimension 4 (mat4 args).
Proof.
  unfold matrix_of_dimension, mat4.
  destruct (objectToArray args) as [|? [|? ?]]; cbn [tagged_square length_of length];
    unfold square; cbn [forallb length]; rewrite ?length_vec4; done.
Qed.

(** *** Stores into a matrix *)

Lemma matrix_of_dimension_iff d m :
  matrix_of_dimension d m <->
  exists rows, m = Nested true rows /\ length rows = d
               /\ Forall (fun r => length r = d) rows.
Proof.
  unfold matrix_of_dimension. rewrite tagged_square_iff. split.
  - intros [(rows & -> & Hs) Hd]. cbn in Hd. subst d. eauto.
  - intros (rows & -> & Hd & Hs). subst d. eauto.
Qed.

Lemma setEntry_matrix d m i j x log m' :
  matrix_of_dimension d m -> i < d -> j < d ->
  setEntry m i j x = (log, Normal m') ->
  matrix_of_dimension d m'.
Proof.
  rewrite !matrix_of_dimension_iff. intros (rows & -> & Hd & Hs) Hi Hj.
  cbn [setEntry]. destruct (rows !! i) as [r|] eqn:Hr; [|discriminate].
  assert (length r = d) as Hlen.
  { rewrite Forall_lookup in Hs. exact (Hs i r Hr). }
  rewrite Hlen. destruct (Nat.ltb_spec j d); [|lia].
  intros [= _ <-]. eexists. split; [reflexivity|].
  rewrite length_insert. split; [exact Hd|].
  apply Forall_insert; [exact Hs|]. rewrite length_insert. exact Hlen.
Qed.

Lemma assign_matrix d m i j value log m' :
  matrix_of_dimension d m -> i < d -> j < d ->
  assign m i j value = (log, Normal m') ->
  matrix_of_dimension d m'.
Proof.
  intros Hm Hi Hj Hrun. unfold assign in Hrun.
  apply bind_inv in Hrun as (x & l1 & l2 & _ & Hset).
  exact (setEntry_matrix d m i j x l2 m' Hm Hi Hj Hset).
Qed.

(** *** Addition and subtraction *)

Lemma elementwise_rows_matrix op msg d : forall ur vr result log o,
  elementwise_rows op msg ur vr result = (log, Normal o) ->
  Forall (fun r => length r = d) result ->
  Forall (fun r => length r = d) ur ->
  undefined_or
    (fun m => exists rows, m = Nested true rows
                /\ length rows = length result + length ur
                /\ Forall (fun r => length r = d) rows) o.
Proof.
  induction ur as [|r ur IH]; intros vr result log o Hrun Hres Hur.
  - cbn in Hrun. injection Hrun as _ <-. cbn. exists result.
    split; [reflexivity|]. split; [lia|exact Hres].
  - cbn [elementwise_rows] in Hrun. destruct vr as [|s vr]; [discriminate|].
    destruct (same_length r s) eqn:Hsame; cbn [negb] in Hrun.
    + apply IH in Hrun.
      * destruct o as [m|]; [|exact I]. cbn in *.
        destruct Hrun as (rows & -> & Hlen & Hrows). exists rows.
        rewrite length_app in Hlen. cbn in Hlen.
        split; [reflexivity|]. split; [lia|exact Hrows].
      * apply Forall_app. split; [exact Hres|]. constructor; [|constructor].
        apply Nat.eqb_eq in Hsame. inversion Hur; subst.
        apply length_zip_with_l_eq, Hsame.
      * inversion Hur; assumption.
    + rewrite bind_console_error in Hrun. injection Hrun as _ <-. exact I.
Qed.

Lemma elementwise_matrix op (s1 s2 s3 s4 : string) d u v :
  matrix_of_dimension d u ->
  produces (elementwise op s1 s2 s3 s4 u v)
           (undefined_or (matrix_of_dimension d)).
Proof.
  rewrite matrix_of_dimension_iff. intros (ur & -> & Hd & Hs) log o Hrun.
  unfold elementwise in Hrun. destruct v as [vs|[] vr].
  - rewrite bind_console_error in Hrun. injection Hrun as _ <-. exact I.
  - destruct (length ur =? length vr); cbn [negb] in Hrun.
    + apply (elementwise_rows_matrix op s2 d) in Hrun; [|constructor|exact Hs].
      destruct o as [m|]; [|exact I]. cbn in *.
      destruct Hrun as (rows & -> & Hlen & Hrows).
      apply matrix_of_dimension_iff. exists rows.
      split; [reflexivity|]. split; [lia|exact Hrows].
    + rewrite bind_console_error in Hrun. injection Hrun as _ <-. exact I.
  - rewrite bind_console_error in Hrun. injection Hrun as _ <-. exact I.
Qed.

(** *** Multiplication and transposition *)

Lemma linearMultiply_matrix d u v :
  matrix_of_dimension d u -> matrix_of v = true ->
  produces (linearMultiply u v) (undefined_or (matrix_of_dimension d)).
Proof.
  rewrite matrix_of_dimension_iff. intros (ur & -> & Hd & Hs) Hv log o Hrun.
  destruct v as [vs|[] vr]; try discriminate Hv. unfold linearMultiply in Hrun.
  destruct (Nat.eqb_spec (length ur) (length vr)) as [Hlen|];
    cbn [negb] in Hrun;
    [|rewrite bind_console_error in Hrun; injection Hrun as _ <-; exact I].
  destruct (all2 same_length ur vr); cbn [negb] in Hrun;
    [|rewrite bind_console_error in Hrun; injection Hrun as _ <-; exact I].
  apply bind_inv in Hrun as (result & l1 & l2 & Hloop & Hret).
  injection Hret as _ <-. cbn.
  apply (push_loop_inv (fun _ row => length row = d)) in Hloop as [Hn Hrows].
  - apply matrix_of_dimension_iff. exists result.
    split; [reflexivity|]. split; [lia|].
    apply Forall_lookup. exact Hrows.
  - intros i lg row _ Hrow.
    apply (push_loop_inv (fun _ _ => True)) in Hrow as [Hrow _]; [lia|done].
Qed.

Lemma transposeMatrix_matrix d m :
  matrix_of_dimension d m ->
  produces (transposeMatrix m) (undefined_or (matrix_of_dimension d)).
Proof.
  rewrite matrix_of_dimension_iff. intros (rows & -> & Hd & Hs) log o Hrun.
  unfold transposeMatrix in Hrun. cbn [matrix_of negb length_of] in Hrun.
  apply bind_inv in Hrun as (result & l1 & l2 & Hloop & Hret).
  injection Hret as _ <-. cbn.
  apply (push_loop_inv (fun _ row => length row = d)) in Hloop as [Hn Hrows].
  - apply matrix_of_dimension_iff. exists result.
    split; [reflexivity|]. split; [lia|].
    apply Forall_lookup. exact Hrows.
  - intros i lg row Hi Hrow.
    apply bind_inv in Hrow as (n & l3 & l4 & Hlen & Hrow).
    cbn [row_length] in Hlen. destruct (rows !! i) as [r|] eqn:Hr; [|discriminate].
    injection Hlen as _ <-.
    apply (push_loop_inv (fun _ _ => True)) in Hrow as [Hrow _]; [|done].
    rewrite Forall_lookup in Hs. rewrite Hrow. exact (Hs i r Hr).
Qed.

(** *** Builders *)

(** One step of a sequence: a store into the matrix that [Hm] describes,
    or any other step. *)
Ltac stored Hm Hrun :=
  let Hs := fresh "Hs" in
  first
    [ apply bind_inv in Hrun as (? & ? & ? & Hs & Hrun);
      first [ apply (setEntry_matrix _ _ _ _ _ _ _ Hm) in Hs; [|lia|lia]
            | apply (assign_matrix _ _ _ _ _ _ _ Hm) in Hs; [|lia|lia] ];
      clear Hm; rename Hs into Hm
    | apply bind_inv in Hrun as (? & ? & ? & _ & Hrun) ].

Ltac returned Hrun := injection Hrun as _ <-.

Lemma translateMatrix_matrix x y z :
  produces (translateMatrix x y z) (matrix_of_dimension 4).
Proof.
  intros log m Hrun. unfold translateMatrix in Hrun.
  apply bind_inv in Hrun as ([[x' y'] z'] & ? & ? & _ & Hrun).
  pose proof (mat4_matrix []) as Hm.
  repeat stored Hm Hrun. returned Hrun. exact Hm.
Qed.

Lemma scalingMatrix_matrix x y z :
  produces (scalingMatrix x y z) (matrix_of_dimension 4).
Proof.
  intros log m Hrun. unfold scalingMatrix in Hrun.
  apply bind_inv in Hrun as ([[x' y'] z'] & ? & ? & _ & Hrun).
  pose proof (mat4_matrix []) as Hm.
  repeat stored Hm Hrun. returned Hrun. exact Hm.
Qed.

Lemma rotateMatrix_matrix angle rest :
  produces (rotateMatrix angle rest) (matrix_of_dimension 4).
Proof.
  intros log m Hrun. unfold rotateMatrix in Hrun.
  do 6 (apply bind_inv in Hrun as (? & ? & ? & _ & Hrun)).
  returned Hrun. apply mat4_matrix.
Qed.

Lemma viewMatrixAt_matrix eye at_ up :
  produces (viewMatrixAt eye at_ up) (undefined_or (matrix_of_dimension 4)).
Proof.
  intros log o Hrun. unfold viewMatrixAt in Hrun.
  destruct (length_of eye =? 3); cbn [negb] in Hrun;
    [|rewrite bind_console_error in Hrun; returned Hrun; exact I].
  destruct (length_of at_ =? 3); cbn [negb] in Hrun;
    [|rewrite bind_console_error in Hrun; returned Hrun; exact I].
  destruct (length_of up =? 3); cbn [negb] in Hrun;
    [|rewrite bind_console_error in Hrun; returned Hrun; exact I].
  apply bind_inv in Hrun as ([] & ? & ? & _ & Hrun).
  - returned Hrun. apply mat4_matrix.
  - do 18 (apply bind_inv in Hrun as (? & ? & ? & _ & Hrun)).
    returned Hrun. apply mat4_matrix.
Qed.

Lemma buildOrthographicMatrix_matrix left right bottom top near far :
  produces (buildOrthographicMatrix left right bottom top near far)
           (matrix_of_dimension 4).
Proof.
  intros log m Hrun. unfold buildOrthographicMatrix in Hrun.
  destruct (left == right)%num; [discriminate|].
  destruct (bottom == top)%num; [discriminate|].
  destruct (near == far)%num; [discriminate|].
  pose proof (mat4_matrix []) as Hm.
  repeat stored Hm Hrun. returned Hrun. exact Hm.
Qed.

Lemma buildPerspectiveMatrix_matrix fovY aspect near far :
  produces (buildPerspectiveMatrix fovY aspect near far)
           (matrix_of_dimension 4).
Proof.
  intros log m Hrun. unfold buildPerspectiveMatrix in Hrun.
  pose proof (mat4_matrix []) as Hm.
  repeat stored Hm Hrun. returned Hrun. exact Hm.
Qed.

(** *** Inverses *)

Lemma set_matrix_matrix d m :
  matrix_of_dimension d m -> matrix_of_dimension d (set_matrix m).
Proof.
  rewrite matrix_of_dimension_iff. intros (rows & -> & Hm).
  apply matrix_of_dimension_iff. exists rows. auto.
Qed.

Lemma inverse2_matrix m : produces (inverse2 m) (matrix_of_dimension 2).
Proof.
  intros log a Hrun. unfold inverse2 in Hrun.
  pose proof (mat2_matrix []) as Hm.
  repeat stored Hm Hrun. returned Hrun. apply set_matrix_matrix, Hm.
Qed.

Lemma inverse3_matrix m : produces (inverse3 m) (matrix_of_dimension 3).
Proof.
  intros log a Hrun. unfold inverse3 in Hrun.
  pose proof (mat3_matrix []) as Hm.
  repeat stored Hm Hrun. returned Hrun. exact Hm.
Qed.

Lemma inverse4_matrix m : produces (inverse4 m) (matrix_of_dimension 4).
Proof.
  intros log a Hrun. unfold inverse4 in Hrun.
  pose proof (mat4_matrix []) as Hm.
  repeat stored Hm Hrun. returned Hrun. exact Hm.
Qed.

Lemma calculateInverseMatrix_matrix m :
  produces (calculateInverseMatrix m)
           (undefined_or (matrix_of_dimension (length_of m))).
Proof.
  intros log o Hrun. unfold calculateInverseMatrix in Hrun.
  apply bind_inv in Hrun as (? & ? & ? & _ & Hrun).
  destruct (Nat.eqb_spec (length_of m) 2) as [->|_].
  { apply bind_inv in Hrun as (a & ? & ? & Ha & Hrun). returned Hrun.
    exact (inverse2_matrix m _ a Ha). }
  destruct (Nat.eqb_spec (length_of m) 3) as [->|_].
  { apply bind_inv in Hrun as (a & ? & ? & Ha & Hrun). returned Hrun.
    exact (inverse3_matrix m _ a Ha). }
  destruct (Nat.eqb_spec (length_of m) 4) as [->|_].
  { apply bind_inv in Hrun as (a & ? & ? & Ha & Hrun). returned Hrun.
    exact (inverse4_matrix m _ a Ha). }
  returned Hrun. exact I.
Qed.

Lemma for_each_inv {A} (P : A -> Prop) (body : A -> nat -> Js A) :
  forall idx acc log r,
    (forall i acc lg acc', i ∈ idx -> P acc ->
                           body acc i = (lg, Normal acc') -> P acc') ->
    P acc -> for_each idx body acc = (log, Normal r) -> P r.
Proof.
  induction idx as [|i idx IH]; intros acc log r Hbody Hacc Hrun.
  - cbn in Hrun. returned Hrun. exact Hacc.
  - cbn [for_each] in Hrun.
    apply bind_inv in Hrun as (acc' & ? & ? & Hstep & Hrun).
    eapply (IH acc'); [|eapply Hbody; [left|exact Hacc|exact Hstep] |exact Hrun].
    intros j b lg b' Hj. apply Hbody. right. exact Hj.
Qed.

Lemma normalizeMatrix_matrix m flag :
  produces (normalizeMatrix m flag)
           (undefined_or (fun a => tagged_square a = true)).
Proof.
  intros log o Hrun. unfold normalizeMatrix in Hrun.
  apply bind_inv in Hrun as (? & ? & ? & _ & Hrun).
  apply bind_inv in Hrun as (t & ? & ? & _ & Hrun).
  apply bind_inv in Hrun as (a & ? & ? & Ha & Hrun).
  destruct flag; cbn [negb] in Hrun.
  - apply bind_inv in Hrun as (b & ? & ? & Hb & Hrun). returned Hrun.
    cbn. apply (for_each_inv (matrix_of_dimension 3)) in Hb;
      [apply Hb| |apply mat3_matrix].
    intros i b0 lg b1 Hi Hb0 Hin.
    apply (for_each_inv (matrix_of_dimension 3)) in Hin; [exact Hin| |exact Hb0].
    intros j b2 lg' b3 Hj Hb2 Hstore.
    apply bind_inv in Hstore as (? & ? & ? & _ & Hstore).
    apply elem_of_seq in Hi, Hj.
    apply (assign_matrix 3 _ _ _ _ _ _ Hb2) in Hstore; [exact Hstore|lia|lia].
  - returned Hrun. apply calculateInverseMatrix_matrix in Ha.
    destruct a as [a|]; [|exact I]. apply Ha.
Qed.

(** *** The operations do return *)

Lemma matrix_operations_return d (ur vr : list (list T)) :
  dimension d = true -> square d ur = true -> square d vr = true ->
  (exists m, linearAddition (Nested true ur) (Nested true vr)
             = ([], Normal (Some m)))
  /\ (exists m, linearSubtract (Nested true ur) (Nested true vr)
                = ([], Normal (Some m)))
  /\ (exists m, linearMultiply (Nested true ur) (Nested true vr)
                = ([], Normal (Some m)))
  /\ (exists m, transposeMatrix (Nested true ur) = ([], Normal (Some m)))
  /\ (exists m, calculateInverseMatrix (Nested true ur)
                = ([], Normal (Some m)))
  /\ (exists m, normalizeMatrix (Nested true ur) false
                = ([], Normal (Some m)))
  /\ (d = 4 -> exists m, normalizeMatrix (Nested true ur) true
                         = ([], Normal (Some m))).
Proof.
  intros Hd Hu Hv. unfold square in Hu, Hv. dimensions Hd; shape Hu; shape Hv.
  all: repeat match goal with |- _ /\ _ => split end.
  all: try (eexists; vm_compute; reflexivity).
  all: intros [=].
Qed.

Lemma builders_return :
  (forall x y z : T, exists m, translateMatrix (Num x) y z = ([], Normal m))
  /\ (forall x y z y' z' : T,
        exists m, translateMatrix (Arr [x; y; z]) y' z' = ([], Normal m))
  /\ (forall x y z : T, exists m, scalingMatrix (Num x) y z = ([], Normal m))
  /\ (forall x y z y' z' : T,
        exists m, scalingMatrix (Arr [x; y; z]) y' z' = ([], Normal m))
  /\ (forall fovY aspect near far : T,
        exists m, buildPerspectiveMatrix fovY aspect near far = ([], Normal m)).
Proof.
  repeat match goal with |- _ /\ _ => split end; intros;
    eexists; vm_compute; reflexivity.
Qed.

(** C9: whatever a matrix-producing operation returns, other than
    [undefined], carries the matrix tag and has as many entries in every
    row as it has rows: the constructors, addition, subtraction and
    multiplication of matrices, the transpose, the transform, view and
    projection builders, the inverses and the normal matrix.  On matrices
    of dimension 2, 3 or 4 the operations on matrices do return one. *)
Theorem matrix_tag_carried :
  (forall args, matrix_of_dimension 2 (mat2 args))
  /\ (forall args, matrix_of_dimension 3 (mat3 args))
  /\ (forall args, matrix_of_dimension 4 (mat4 args))
  /\ (forall d u v, matrix_of_dimension d u ->
        produces (linearAddition u v) (undefined_or (matrix_of_dimension d)))
  /\ (forall d u v, matrix_of_dimension d u ->
        produces (linearSubtract u v) (undefined_or (matrix_of_dimension d)))
  /\ (forall d u v, matrix_of_dimension d u -> matrix_of v = true ->
        produces (linearMultiply u v) (undefined_or (matrix_of_dimension d)))
  /\ (forall d m, matrix_of_dimension d m ->
        produces (transposeMatrix m) (undefined_or (matrix_of_dimension d)))
  /\ (forall x y z, produces (translateMatrix x y z) (matrix_of_dimension 4))
  /\ (forall angle rest,
        produces (rotateMatrix angle rest) (matrix_of_dimension 4))
  /\ (forall theta, matrix_of_dimension 4 (rotateX theta)
                    /\ matrix_of_dimension 4 (rotateY theta)
                    /\ matrix_of_dimension 4 (rotateZ theta))
  /\ (forall x y z, produces (scalingMatrix x y z) (matrix_of_dimension 4))
  /\ (forall eye at_ up,
        produces (viewMatrixAt eye at_ up)
                 (undefined_or (matrix_of_dimension 4)))
  /\ (forall left right bottom top near far,
        produces (buildOrthographicMatrix left right bottom top near far)
                 (matrix_of_dimension 4))
  /\ (forall fovY aspect near far,
        produces (buildPerspectiveMatrix fovY aspect near far)
                 (matrix_of_dimension 4))
  /\ (forall m, produces (inverse2 m) (matrix_of_dimension 2))
  /\ (forall m, produces (inverse3 m) (matrix_of_dimension 3))
  /\ (forall m, produces (inverse4 m) (matrix_of_dimension 4))
  /\ (forall m, produces (calculateInverseMatrix m)
                         (undefined_or (matrix_of_dimension (length_of m))))
  /\ (forall m flag, produces (normalizeMatrix m flag)
                              (undefined_or (fun a => tagged_square a = true)))
  /\ (forall d ur vr,
        dimension d = true -> square d ur = true -> square d vr = true ->
        (exists m, linearAddition (Nested true ur) (Nested true vr)
                   = ([], Normal (Some m)))
        /\ (exists m, linearSubtract (Nested true ur) (Nested true vr)
                      = ([], Normal (Some m)))
        /\ (exists m, linearMultiply (Nested true ur) (Nested true vr)
                      = ([], Normal (Some m)))
        /\ (exists m, transposeMatrix (Nested true ur) = ([], Normal (Some m)))
        /\ (exists m, calculateInverseMatrix (Nested true ur)
                      = ([], Normal (Some m)))
        /\ (exists m, normalizeMatrix (Nested true ur) false
                      = ([], Normal (Some m)))
        /\ (d = 4 -> exists m, normalizeMatrix (Nested true ur) true
                               = ([], Normal (Some m)))).
Proof.
  repeat match goal with |- _ /\ _ => split end;
    try exact matrix_operations_return; intros;
    repeat match goal with |- _ /\ _ => split end;
    eauto using mat2_matrix, mat3_matrix, mat4_matrix, elementwise_matrix,
      linearMultiply_matrix, transposeMatrix_matrix, translateMatrix_matrix,
      rotateMatrix_matrix, scalingMatrix_matrix, viewMatrixAt_matrix,
      buildOrthographicMatrix_matrix, buildPerspectiveMatrix_matrix,
      inverse2_matrix, inverse3_matrix, inverse4_matrix,
      calculateInverseMatrix_matrix, normalizeMatrix_matrix.
Qed.

End Tag.

(** ** IEEE arithmetic at a zero divisor and at NaN *)

Module Ieee.
Local Open Scope float_scope.

Lemma Prim2SF_nan : Prim2SF nan = S754_nan.
Proof. reflexivity. Qed.

Lemma eq_nan (x : float) : Prim2SF x = S754_nan -> x = nan.
Proof. intros E. apply Prim2SF_inj. rewrite E. reflexivity. Qed.

Lemma mul_nan_l (y : float) : nan * y = nan.
Proof. apply eq_nan. rewrite FloatAxioms.mul_spec. reflexivity. Qed.

Lemma mul_nan_r (x : float) : x * nan = nan.
Proof.
  apply eq_nan. rewrite FloatAxioms.mul_spec. cbn.
  destruct (Prim2SF x); reflexivity.
Qed.

Lemma add_nan_l (y : float) : nan + y = nan.
Proof. apply eq_nan. rewrite FloatAxioms.add_spec. reflexivity. Qed.

Lemma add_nan_r (x : float) : x + nan = nan.
Proof.
  apply eq_nan. rewrite FloatAxioms.add_spec. cbn.
  destruct (Prim2SF x); reflexivity.
Qed.

Lemma sub_nan_l (y : float) : nan - y = nan.
Proof. apply eq_nan. rewrite FloatAxioms.sub_spec. reflexivity. Qed.

Lemma sub_nan_r (x : float) : x - nan = nan.
Proof.
  apply eq_nan. rewrite FloatAxioms.sub_spec. cbn.
  destruct (Prim2SF x); reflexivity.
Qed.

(** The two zeros are the only numbers equal to zero. *)
Lemma zero_cases (x : float) : (x =? 0) = true -> x = 0 \/ x = -0.
Proof.
  rewrite FloatAxioms.eqb_spec. intros E.
  rewrite <- (SF2Prim_Prim2SF x).
  destruct (Prim2SF x) as [[]|[]| |[] m e]; try discriminate E.
  - right. reflexivity.
  - left. reflexivity.
Qed.


Lemma zero_div_zero (x d : float) :
  (x =? 0) = true -> (d =? 0) = true -> x / d = nan.
Proof.
  intros Ex Ed.
  destruct (zero_cases x Ex) as [-> | ->], (zero_cases d Ed) as [-> | ->];
    reflexivity.
Qed.

Lemma zero_mul_zero (x y : float) :
  (x =? 0) = true -> (y =? 0) = true -> 0 + x * y = 0.
Proof.
  intros Ex Ey.
  destruct (zero_cases x Ex) as [-> | ->], (zero_cases y Ey) as [-> | ->];
    reflexivity.
Qed.

(** *** One and zero as factors, zero as a summand *)

Lemma digits_shift (m : positive) :
  Zpos (digits2_pos (Pos.iter xO m 52)) = (Zpos (digits2_pos m) + 52)%Z.
Proof. cbn [Pos.iter digits2_pos]. rewrite !Pos2Z.inj_succ. lia. Qed.

(** The product of the mantissa of 1, [2^52], with a mantissa [m] loses
    nothing when it is rounded back to 53 bits. *)
Lemma round_one_mul s m e :
  bounded prec emax m e = true ->
  binary_round_aux prec emax s (Zpos (4503599627370496 * m)) (-52 + e) loc_Exact
  = S754_finite s m e.
Proof.
  unfold bounded, canonical_mantissa. intros Hb.
  apply andb_true_iff in Hb as [Hc He]. apply Z.eqb_eq in Hc.
  change (4503599627370496 * m)%positive with (Pos.iter xO m 52).
  unfold binary_round_aux, shr_fexp, Zdigits2.
  rewrite digits_shift.
  replace (fexp prec emax (Zpos (digits2_pos m) + 52 + (-52 + e)) - (-52 + e))%Z
    with 52%Z.
  2:{ replace (Zpos (digits2_pos m) + 52 + (-52 + e))%Z
        with (Zpos (digits2_pos m) + e)%Z by lia.
      rewrite Hc. lia. }
  cbn [shr shr_record_of_loc SpecFloat.iter_pos Pos.iter shr_1 orb shr_m
       loc_of_shr_record round_nearest_even].
  unfold Zdigits2. replace (-52 + e + 52)%Z with e by lia.
  rewrite Hc, Z.sub_diag. cbn [shr shr_m]. rewrite He. reflexivity.
Qed.

Lemma mul_one_l (x : float) : 1 * x = x.
Proof.
  apply Prim2SF_inj. rewrite FloatAxioms.mul_spec.
  change (Prim2SF 1) with (S754_finite false 4503599627370496 (-52)).
  pose proof (Prim2SF_valid x) as Hv.
  destruct (Prim2SF x) as [s|s| |s m e]; try reflexivity.
  unfold SF64mul, SFmul. cbn [xorb]. apply round_one_mul. exact Hv.
Qed.

(** A finite number is a zero or has a mantissa and an exponent. *)
Lemma finite_cases (x : float) :
  is_finite x = true ->
  x = 0 \/ x = -0 \/ exists s m e, Prim2SF x = S754_finite s m e.
Proof.
  unfold is_finite, is_nan, is_infinity.
  rewrite !FloatAxioms.eqb_spec, abs_spec. intros E.
  destruct (Prim2SF x) as [[]|[]| |s m e] eqn:Ex; try discriminate E.
  - right. left. rewrite <- (SF2Prim_Prim2SF x), Ex. reflexivity.
  - left. rewrite <- (SF2Prim_Prim2SF x), Ex. reflexivity.
  - right. right. eauto.
Qed.

Lemma zero_mul_finite (x : float) :
  is_finite x = true -> (0 * x =? 0) = true.
Proof.
  intros Hx. destruct (finite_cases x Hx) as [-> | [-> | (s & m & e & E)]];
    try reflexivity.
  rewrite FloatAxioms.eqb_spec, FloatAxioms.mul_spec, E. reflexivity.
Qed.

Lemma zero_add_zero (a b : float) :
  (a =? 0) = true -> (b =? 0) = true -> (a + b =? 0) = true.
Proof.
  intros Ea Eb.
  destruct (zero_cases a Ea) as [-> | ->], (zero_cases b Eb) as [-> | ->];
    reflexivity.
Qed.

Lemma near_zero_add (x z : float) :
  (z =? 0) = true -> is_finite x = true -> up_to_zero_sign x (z + x).
Proof.
  intros Ez Hx.
  destruct (finite_cases x Hx) as [-> | [-> | (s & m & e & E)]].
  - right. split; [apply zero_add_zero; [exact Ez|]|]; reflexivity.
  - right. split; [apply zero_add_zero; [exact Ez|]|]; reflexivity.
  - left. apply Prim2SF_inj. rewrite FloatAxioms.add_spec, E.
    destruct (zero_cases z Ez) as [-> | ->]; reflexivity.
Qed.

Lemma near_add_zero (x a z : float) :
  up_to_zero_sign x a -> (z =? 0) = true -> is_finite x = true -> up_to_zero_sign x (a + z).
Proof.
  intros [-> | [Ea Ex]] Ez Hx.
  - destruct (finite_cases x Hx) as [-> | [-> | (s & m & e & E)]].
    + right. split; [apply zero_add_zero; [|exact Ez]|]; reflexivity.
    + right. split; [apply zero_add_zero; [|exact Ez]|]; reflexivity.
    + left. apply Prim2SF_inj. rewrite FloatAxioms.add_spec, E.
      destruct (zero_cases z Ez) as [-> | ->]; reflexivity.
  - right. split; [apply zero_add_zero; assumption|exact Ex].
Qed.

Lemma eqb_refl_finite (x : float) : is_finite x = true -> (x =? x) = true.
Proof.
  unfold is_finite, is_nan. intros Hx.
  destruct (x =? x); [reflexivity|discriminate Hx].
Qed.

Lemma near_eqb (x a : float) :
  up_to_zero_sign x a -> is_finite x = true -> (a =? x) = true.
Proof.
  intros [-> | [Ea Ex]] Hx; [apply eqb_refl_finite, Hx|].
  destruct (zero_cases a Ea) as [-> | ->], (zero_cases x Ex) as [-> | ->];
    reflexivity.
Qed.

(** A sum that starts at [0]: the term of the identity's zero leaves it
    at [+0], the term of its one brings in the entry, without the sign of
    a zero, and the zeros that follow change nothing. *)
Lemma zero_add_zero_mul (y : float) :
  is_finite y = true -> 0 + 0 * y = 0.
Proof.
  intros Hy. destruct (zero_cases _ (zero_mul_finite y Hy)) as [-> | ->];
    reflexivity.
Qed.

Lemma zero_add_finite (x : float) :
  is_finite x = true -> 0 + x = positive_zero x.
Proof.
  intros Hx. unfold positive_zero. destruct (x =? 0) eqn:Ex.
  - destruct (zero_cases x Ex) as [-> | ->]; reflexivity.
  - destruct (near_zero_add x 0 eq_refl Hx) as [E | [_ E]]; [exact E|].
    rewrite E in Ex. discriminate Ex.
Qed.

Lemma positive_zero_add_zero_mul (x y : float) :
  is_finite x = true -> is_finite y = true ->
  positive_zero x + 0 * y = positive_zero x.
Proof.
  intros Hx Hy. pose proof (zero_mul_finite y Hy) as Ez.
  unfold positive_zero. destruct (x =? 0) eqn:Ex.
  - destruct (zero_cases _ Ez) as [-> | ->]; reflexivity.
  - destruct (near_add_zero x x (0 * y) (or_introl eq_refl) Ez Hx)
      as [E | [_ E]]; [exact E|].
    rewrite E in Ex. discriminate Ex.
Qed.

Lemma positive_zero_eqb (x : float) :
  is_finite x = true -> (positive_zero x =? x) = true.
Proof.
  intros Hx. unfold positive_zero. destruct (x =? 0) eqn:Ex.
  - destruct (zero_cases x Ex) as [-> | ->]; reflexivity.
  - apply eqb_refl_finite, Hx.
Qed.

End Ieee.

(** ** The library on binary64 numbers *)

Section OnFloats.
Context {host : Binary64.Host}.

Local Open Scope float_scope.

Lemma all_zero_lookup u i x :
  all_zero u = true -> u !! i = Some x -> (x =? 0) = true.
Proof.
  unfold all_zero. rewrite forallb_forall. intros Hu Hi.
  apply Hu, list_elem_of_In, list_elem_of_lookup. eauto.
Qed.

Lemma sum_of_squares_zero (u : list float) len : forall s,
  all_zero u = true -> s + len <= length u ->
  for_each (seq s len)
    (fun sum k => lift2 add (ret sum) (lift2 mul (item u k) (item u k))) 0
  = ([], Normal 0).
Proof.
  induction len as [|len IH]; intros s Hu Hlen; [reflexivity|].
  cbn [seq for_each].
  destruct (lookup_lt_is_Some_2 u s) as [x Hx]; [lia|].
  unfold item at 1 2. rewrite Hx, !lift2_ret, bind_ret.
  cbn [add mul Binary64.number].
  rewrite (Ieee.zero_mul_zero x x) by exact (all_zero_lookup u s x Hu Hx).
  apply (IH (S s) Hu). lia.
Qed.

Lemma vectorLength_zero (u : list float) :
  all_zero u = true -> vectorLength u = ([], Normal 0).
Proof.
  intros Hu. unfold vectorLength, dotProduct, sum_loop, for_loop.
  rewrite Nat.eqb_refl. cbn [negb]. rewrite bind_ret.
  cbn [ofZ Binary64.number Binary64.literal].
  rewrite (sum_of_squares_zero u (length u) 0 Hu) by lia. reflexivity.
Qed.

Lemma divide_zeros (u : list float) :
  all_zero u = true ->
  map (fun x => x / 0) u = replicate (length u) nan.
Proof.
  induction u as [|x u IH]; [reflexivity|]. cbn. intros Hu.
  apply andb_true_iff in Hu as [Hx Hu].
  rewrite (Ieee.zero_div_zero x 0 Hx) by reflexivity. rewrite IH by exact Hu.
  reflexivity.
Qed.

Lemma normalizeVectors_zero (u : list float) :
  all_zero u = true ->
  normalizeVectors u false = ([], Normal (Some (replicate (length u) nan))).
Proof.
  intros Hu. unfold normalizeVectors. rewrite (vectorLength_zero u Hu).
  rewrite bind_Normal. cbn.
  change (map _ u) with (map (fun x => x / 0) u).
  rewrite (divide_zeros u Hu). reflexivity.
Qed.

Lemma rotateMatrix_zero_axis angle (rest : list (arg float)) x y z :
  all_zero [x; y; z] = true ->
  rest = [Arr [x; y; z]] \/ rest = [Num x; Num y; Num z] ->
  rotateMatrix angle rest = ([], Normal rotation_of_nan).
Proof.
  intros Hu Hrest. unfold rotateMatrix.
  assert ((match rest with
           | Arr xs :: _ => ret xs
           | Num a1 :: Num a2 :: Num a3 :: _ => ret [a1; a2; a3]
           | _ => unmodelled
           end) = ret [x; y; z]) as -> by (destruct Hrest as [-> | ->]; reflexivity).
  rewrite bind_ret, (normalizeVectors_zero [x; y; z] Hu), bind_Normal.
  vm_compute.
  rewrite ?Ieee.mul_nan_l, ?Ieee.add_nan_l, ?Ieee.sub_nan_l. reflexivity.
Qed.

(** C10: on a vector of zeros [normalizeVectors] computes the length 0,
    which [isFinite] accepts, writes no diagnostic, and returns the vector
    with every component divided by zero, all NaN; [rotateMatrix] with an
    axis of zeros, given as an array or as three numbers, then returns,
    without a diagnostic, the matrix whose rotation entries are NaN. *)
Theorem normalizeVectors_zero_vector (u : list float) :
  all_zero u = true ->
  (exists len, vectorLength u = ([], Normal len)
               /\ (len =? 0) = true /\ isFinite len = true)
  /\ normalizeVectors u false = ([], Normal (Some (replicate (length u) nan)))
  /\ (forall angle x y z,
        u = [x; y; z] ->
        rotateMatrix angle [Arr u] = ([], Normal rotation_of_nan)
        /\ rotateMatrix angle [Num x; Num y; Num z]
           = ([], Normal rotation_of_nan)).
Proof.
  intros Hu. split; [|split].
  - exists 0. split; [apply vectorLength_zero, Hu|]. split; reflexivity.
  - apply normalizeVectors_zero, Hu.
  - intros angle x y z ->.
    split; apply (rotateMatrix_zero_axis angle _ x y z Hu); auto.
Qed.


Lemma linearScale_vector (s : float) (xs : list float) :
  linearScale s (Vector xs) = ([], Normal (Vector (map (fun x => s * x) xs))).
Proof. reflexivity. Qed.

(** C2 (what the code does instead): scaling a tagged matrix of dimension
    2, 3 or 4 multiplies the scalar with each row, not with the entries of
    the row, and returns one NaN per row in an array without the matrix
    tag. *)
Theorem linearScale_matrix (s : float) d (rows : list (list float)) :
  dimension d = true -> square d rows = true ->
  linearScale s (Nested true rows) = ([], Normal (Vector (replicate d nan))).
Proof.
  intros Hd Hs. unfold square in Hs. dimensions Hd; shape Hs.
  all: vm_compute; rewrite ?Ieee.mul_nan_r; reflexivity.
Qed.

(** *** The identity as left factor *)

Ltac zero_sum :=
  first [ reflexivity
        | apply Ieee.zero_mul_finite; assumption
        | apply Ieee.zero_add_zero; zero_sum ].

Ltac near_sum :=
  first [ apply Ieee.near_zero_add; [zero_sum | assumption]
        | apply Ieee.near_add_zero; [near_sum | zero_sum | assumption] ].

Ltac finite_entries H :=
  cbn [entries concat app forallb] in H;
  repeat match type of H with
         | (_ && _) = true =>
             let Hx := fresh "Hx" in apply andb_true_iff in H as [Hx H]
         end.

(** C4: the constructor of dimension 2, 3 or 4 called without arguments
    gives the identity, and on binary64 numbers the product of the
    identity with a tagged matrix of that dimension whose entries are all
    finite is that matrix with every negative zero turned into the
    positive one: the same matrix, as [linearEquivalence] compares them. *)
Theorem identity_left_finite d (rows : list (list float)) :
  dimension d = true -> square d rows = true ->
  forallb is_finite (concat rows) = true ->
  mat d [] = (identity d : array float)
  /\ linearMultiply (mat d []) (Nested true rows)
     = ([], Normal (Some (Nested true (map (map positive_zero) rows))))
  /\ linearEquivalence (Nested true (map (map positive_zero) rows))
       (Nested true rows)
     = ([], Normal true).
Proof.
  intros Hd Hs Hf. unfold square in Hs. dimensions Hd; shape Hs.
  all: finite_entries Hf.
  all: split; [reflexivity|split].
  all: cbv -[positive_zero PrimFloat.add PrimFloat.mul PrimFloat.eqb].
  all: rewrite ?Ieee.mul_one_l.
  all: rewrite ?Ieee.zero_add_zero_mul by assumption.
  all: rewrite ?Ieee.zero_add_finite by assumption.
  all: rewrite ?Ieee.positive_zero_add_zero_mul by assumption.
  all: rewrite ?Ieee.positive_zero_eqb by assumption.
  all: reflexivity.
Qed.

End OnFloats.


Section Examples.

#[local] Existing Instance Binary64.plain.

Lemma linearScale_matrix_witness :
  linearScale 2%float (mat2 [])
  = ([], Normal (Vector [nan; nan])).
Proof.
  apply (linearScale_matrix (host := Binary64.plain) 2%float 2
           [[1; 0]; [0; 1]]%float); reflexivity.
Defined.


Lemma normalizeVectors_zero_vector_witness :
  normalizeVectors [0; 0; 0]%float false
  = ([], Normal (Some [nan; nan; nan])).
Proof.
  apply (normalizeVectors_zero_vector (host := Binary64.plain) [0; 0; 0]%float).
  reflexivity.
Defined.

Lemma identity_left_finite_witness :
  mat 2 [] = (identity 2 : array float)
  /\ linearMultiply (mat 2 []) (Nested true [[2; -0]; [0.5; 1]]%float)
     = ([], Normal (Some (Nested true [[2; 0]; [0.5; 1]]%float))).
Proof.
  destruct (identity_left_finite (host := Binary64.plain) 2
              [[2; -0]; [0.5; 1]]%float) as (Hid & Hmul & _);
    [reflexivity|reflexivity|reflexivity|].
  split; [exact Hid|exact Hmul].
Defined.

(** An infinite entry meets the zeros of the identity: [0 * Infinity] is
    NaN, and the product is not the matrix. *)
Lemma identity_left_counterexample :
  let m := Nested true [[infinity; 0]; [0; 1]]%float in
  tagged_square m = true /\ length_of m = 2
  /\ linearMultiply (mat 2 []) m
     = ([], Normal (Some (Nested true [[infinity; 0]; [nan; 1]]%float)))
  /\ linearMultiply (mat 2 []) m <> ([], Normal (Some m)).
Proof.
  cbv zeta. split; [reflexivity|]. split; [reflexivity|].
  split; [vm_compute; reflexivity|].
  intros E. vm_compute in E.
  assert (is_nan nan = is_nan 0)%float as Hnan by congruence.
  discriminate Hnan.
Qed.

(** The scenarios of the specification, evaluated. *)

Local Open Scope float_scope.

Example translate_point :
  bind (translateMatrix (Num 1) 2 3)
       (fun t => linearMultiply t (Vector (vec4 [Num 0; Num 0; Num 0; Num 1])))
  = ([], Normal (Some (Vector [1; 2; 3; 1]))).
Proof. vm_compute. reflexivity. Qed.

Example scale_point :
  bind (scalingMatrix (Arr [2; 3; 4]) 0 0)
       (fun t => linearMultiply t (Vector [1; 1; 1; 1]))
  = ([], Normal (Some (Vector [2; 3; 4; 1]))).
Proof. vm_compute. reflexivity. Qed.

Example det2_1234 : det2 (Nested false [[1; 2]; [3; 4]]) = ([], Normal (-2)).
Proof. vm_compute. reflexivity. Qed.

Example det3_identity : det3 (mat3 []) = ([], Normal 1).
Proof. vm_compute. reflexivity. Qed.

Example add_vec3_vec4 :
  linearAddition (Vector [1; 2; 3]) (Vector [1; 2; 3; 4])
  = (["WebGL Utilities: linearAddition(): Cannot add matrices of different dimensions."],
     Normal None).
Proof. vm_compute. reflexivity. Qed.

Example transpose_twice :
  bind (transposeMatrix (mat3 (map Num [1; 2; 3; 4; 5; 6; 7; 8; 9])))
       (fun t => bind (defined t) transposeMatrix)
  = ([], Normal (Some (mat3 (map Num [1; 2; 3; 4; 5; 6; 7; 8; 9])))).
Proof. vm_compute. reflexivity. Qed.

Example flatten_mat2 :
  linearFlatten (mat2 (map Num [1; 2; 3; 4])) = ([], Normal [1; 3; 2; 4]).
Proof. vm_compute. reflexivity. Qed.

Example ortho_degenerate :
  buildOrthographicMatrix 0 1 2 2 0 1
  = ([], Throw (Message "ortho(): bottom and top are equal")).
Proof. vm_compute. reflexivity. Qed.

Example inverse_singular :
  calculateInverseMatrix (Nested true [[1; 2]; [2; 4]])
  = ([], Normal (Some (Nested true
       [[infinity; neg_infinity]; [neg_infinity; infinity]]))).
Proof. vm_compute. reflexivity. Qed.

Example look_down_z :
  viewMatrixAt (Vector [0; 0; 1]) (Vector [0; 0; 0]) (Vector [0; 1; 0])
  = ([], Normal (Some (Nested true
       [[1; -0; 0; -0]; [0; 1; 0; -0]; [-0; -0; 1; -1]; [0; 0; 0; 1]]))).
Proof. vm_compute. reflexivity. Qed.

End Examples.

(** ** The library in exact arithmetic *)

Module Exact.
Local Open Scope R_scope.

(** Evaluates the library's own text and leaves the arithmetic of the
    reals as it stands. *)
Ltac evaluate :=
  cbv -[Rplus Rminus Rmult Rdiv Ropp Rinv IZR R_sqrt.sqrt
        Rtrigo_def.cos Rtrigo_def.sin Rtrigo1.tan Rtrigo1.PI Req_dec_T].
Ltac evaluate_in H :=
  cbv -[Rplus Rminus Rmult Rdiv Ropp Rinv IZR R_sqrt.sqrt
        Rtrigo_def.cos Rtrigo_def.sin Rtrigo1.tan Rtrigo1.PI Req_dec_T] in H.

(** In exact arithmetic the product of the identity with a matrix of
    dimension 2, 3 or 4 is the matrix itself, whatever its entries. *)
Lemma identity_left d (rows : list (list R)) :
  dimension d = true -> square d rows = true ->
  mat d [] = (identity d : array R)
  /\ linearMultiply (mat d []) (Nested true rows)
     = ([], Normal (Some (Nested true rows))).
Proof.
  intros Hd Hs. unfold square in Hs. dimensions Hd; shape Hs.
  all: split; [reflexivity|].
  all: evaluate; repeat f_equal; ring.
Qed.

(** C1: for a tagged matrix of dimension 2, 3 or 4 with a determinant
    other than zero, [calculateInverseMatrix] returns the adjugate divided
    by the determinant, and the matrix times that inverse is the
    identity. *)
Theorem calculateInverseMatrix_inverse d (rows : list (list R)) det :
  dimension d = true -> square d rows = true ->
  calculateDeterminant (Nested true rows) = ([], Normal (Some det)) ->
  det <> 0 ->
  det = determinant d rows
  /\ exists inverse,
      calculateInverseMatrix (Nested true rows)
      = ([], Normal (Some (Nested true inverse)))
      /\ (forall i j, (i < d)%nat -> (j < d)%nat ->
            cell inverse i j = Some (adjugate d rows i j / det))
      /\ linearMultiply (Nested true rows) (Nested true inverse)
         = ([], Normal (Some (identity d))).
Proof.
  intros Hd Hs Hdet Hnz. unfold square in Hs. dimensions Hd; shape Hs.
  all: evaluate_in Hdet; injection Hdet as Hdet.
  all: split; [rewrite <- Hdet; evaluate; ring|].
  all: eexists; split; [evaluate; reflexivity|].
  all: split.
  all: try (intros i j Hi Hj;
            repeat (destruct i as [|i]; [|try lia]);
            repeat (destruct j as [|j]; [|try lia]);
            evaluate; f_equal; rewrite <- Hdet in *; field; exact Hnz).
  all: evaluate; repeat f_equal; rewrite <- Hdet in Hnz; field; exact Hnz.
Qed.

(** *** Rotation about the z axis *)

Lemma rotateZ_entries (theta : R) :
  rotateZ theta
  = Nested true
      [[cos (theta * PI / 180); - sin (theta * PI / 180); 0; 0];
       [sin (theta * PI / 180); cos (theta * PI / 180); 0; 0];
       [0; 0; 1; 0];
       [0; 0; 0; 1]].
Proof. reflexivity. Qed.

(** C8: [rotateZ] takes its angle in degrees; [rotateZ(0)] is the 4x4
    identity, and [rotateZ(90)] maps (1, 0, 0, 1) to (0, 1, 0, 1): the x
    axis turns onto the y axis, counter-clockwise seen from +z. *)
Theorem rotateZ_quarter_turn :
  (forall theta,
      rotateZ theta
      = Nested true
          [[cos (degreesToRadians theta); - sin (degreesToRadians theta); 0; 0];
           [sin (degreesToRadians theta); cos (degreesToRadians theta); 0; 0];
           [0; 0; 1; 0];
           [0; 0; 0; 1]]
      /\ degreesToRadians theta = theta * PI / 180)
  /\ rotateZ 0 = identity 4
  /\ linearMultiply (rotateZ 90) (Vector [1; 0; 0; 1])
     = ([], Normal (Some (Vector [0; 1; 0; 1]))).
Proof.
  split; [|split].
  - intros theta. split; reflexivity.
  - rewrite rotateZ_entries. replace (0 * PI / 180) with 0 by field.
    rewrite cos_0, sin_0. evaluate. repeat f_equal; ring.
  - rewrite rotateZ_entries. replace (90 * PI / 180) with (PI / 2) by field.
    rewrite cos_PI2, sin_PI2. evaluate. repeat f_equal; ring.
Qed.

End Exact.

Lemma calculateInverseMatrix_inverse_witness :
  exists inverse,
    calculateInverseMatrix (Nested true [[2; 1]; [1; 1]]%R)
    = ([], Normal (Some (Nested true inverse)))
    /\ linearMultiply (Nested true [[2; 1]; [1; 1]]%R) (Nested true inverse)
       = ([], Normal (Some (identity 2))).
Proof.
  destruct (Exact.calculateInverseMatrix_inverse 2 [[2; 1]; [1; 1]]%R
              (2 * 1 - 1 * 1)%R) as (_ & inverse & Hinv & _ & Hmul).
  - reflexivity.
  - reflexivity.
  - reflexivity.
  - lra.
  - exists inverse. split; [exact Hinv|exact Hmul].
Defined.

(** * Further properties *)

(** ** Loops that read within bounds *)

Section Loops.
Context {T : Type} `{Number T}.

Lemma for_each_push_ok {A} (value : nat -> Js A) (g : nat -> A) len :
  forall s (acc : list A),
    (forall i, s <= i < s + len -> value i = ([], Normal (g i))) ->
    for_each (seq s len)
      (fun result i => bind (value i) (fun x => ret (result ++ [x]))) acc
    = ([], Normal (acc ++ map g (seq s len))).
Proof.
  induction len as [|len IH]; intros s acc Hv.
  - cbn. rewrite app_nil_r. reflexivity.
  - cbn [seq for_each map]. rewrite (Hv s) by lia. rewrite !bind_Normal.
    unfold ret at 1. rewrite bind_Normal.
    rewrite IH by (intros i Hi; apply Hv; lia).
    rewrite <- app_assoc. reflexivity.
Qed.

Lemma push_loop_ok {A} n (value : nat -> Js A) (g : nat -> A) :
  (forall i, i < n -> value i = ([], Normal (g i))) ->
  push_loop n value = ([], Normal (map g (seq 0 n))).
Proof.
  intros Hv. unfold push_loop, for_loop.
  rewrite (for_each_push_ok value g n 0 []); [reflexivity|].
  intros i Hi. apply Hv. lia.
Qed.

(** The loop of [dotProduct] walks the two lists side by side. *)
Lemma sum_loop_zip (u : list T) : forall (pu pv v : list T) (acc : T),
  length pu = length pv -> length u <= length v ->
  for_each (seq (length pu) (length u))
    (fun sum k => lift2 add (ret sum)
                    (lift2 mul (item (pu ++ u) k) (item (pv ++ v) k))) acc
  = ([], Normal (fold_left add (zip_with mul u v) acc)).
Proof.
  induction u as [|x u IH]; intros pu pv v acc Hp Hlen; [reflexivity|].
  destruct v as [|y v]; [cbn in Hlen; lia|].
  cbn [length seq for_each zip_with fold_left].
  unfold item at 1 2. rewrite list_lookup_middle by reflexivity.
  rewrite list_lookup_middle by exact Hp.
  rewrite !lift2_ret, bind_ret.
  replace (pu ++ x :: u) with ((pu ++ [x]) ++ u) by (rewrite <- app_assoc; reflexivity).
  replace (pv ++ y :: v) with ((pv ++ [y]) ++ v) by (rewrite <- app_assoc; reflexivity).
  replace (S (length pu)) with (length (pu ++ [x])) by (rewrite length_app; cbn; lia).
  apply IH; [rewrite !length_app; cbn; lia|cbn in Hlen; lia].
Qed.

Lemma dotProduct_same_length (u v : list T) :
  length u = length v -> dotProduct u v = ([], Normal (dot u v)).
Proof.
  intros Hlen. unfold dotProduct, sum_loop, for_loop, dot.
  rewrite Hlen, Nat.eqb_refl. cbn [negb]. rewrite bind_ret, <- Hlen.
  apply (sum_loop_zip u [] [] v); [reflexivity|lia].
Qed.

Lemma zip_with_take_longer {A B C} (f : A -> B -> C) (u : list A) : forall v,
  zip_with f u (take (length u) v) = zip_with f u v.
Proof.
  induction u as [|x u IH]; intros [|y v]; cbn; try reflexivity.
  rewrite IH. reflexivity.
Qed.

(** X1: [dotProduct] on a second vector that is longer writes its
    diagnostic and still returns a number, the dot product with the leading
    components of the second vector; on vectors of equal length it writes
    nothing. *)
Theorem dotProduct_longer (u v : list T) :
  length u <= length v ->
  dotProduct u v
  = (if length u =? length v then []
     else ["WebGL Utilities dotProduct(): Vectors are not the same dimension."],
     Normal (dot u (take (length u) v))).
Proof.
  intros Hlen. unfold dot. rewrite zip_with_take_longer.
  destruct (Nat.eqb_spec (length u) (length v)) as [E|E].
  - apply dotProduct_same_length, E.
  - unfold dotProduct, sum_loop, for_loop.
    destruct (Nat.eqb_spec (length u) (length v)); [lia|]. cbn [negb].
    rewrite bind_console_error.
    rewrite (sum_loop_zip u [] [] v) by (cbn; lia). reflexivity.
Qed.

End Loops.

(** ** Vectors in exact arithmetic *)

Section ExactVectors.
Local Open Scope R_scope.

Implicit Types u v : list R.

Lemma dot_acc_ge u : forall acc, acc <= fold_left Rplus (zip_with Rmult u u) acc.
Proof.
  induction u as [|x u IH]; intros acc; cbn; [lra|].
  specialize (IH (acc + x * x)). nra.
Qed.

Lemma dot_acc_pos u : forall acc,
  Exists (fun x => x <> 0) u -> acc < fold_left Rplus (zip_with Rmult u u) acc.
Proof.
  induction u as [|x u IH]; intros acc Hex; [inversion Hex|]. cbn.
  inversion Hex as [? ? Hx|? ? Hu]; subst.
  - pose proof (dot_acc_ge u (acc + x * x)). nra.
  - specialize (IH (acc + x * x) Hu). nra.
Qed.

Lemma dot_scaled u l : l <> 0 -> forall acc,
  fold_left Rplus
    (zip_with Rmult (map (fun x => x / l) u) (map (fun x => x / l) u))
    (acc / (l * l))
  = fold_left Rplus (zip_with Rmult u u) acc / (l * l).
Proof.
  intros Hl. induction u as [|x u IH]; intros acc; cbn; [reflexivity|].
  rewrite <- IH. f_equal. field. exact Hl.
Qed.

Lemma vectorLength_exact u : vectorLength u = ([], Normal (R_sqrt.sqrt (dot u u))).
Proof.
  unfold vectorLength. rewrite dotProduct_same_length by reflexivity.
  reflexivity.
Qed.

Lemma normalizeVectors_exact u :
  normalizeVectors u false
  = ([], Normal (Some (map (fun x => x / R_sqrt.sqrt (dot u u)) u))).
Proof.
  unfold normalizeVectors. rewrite vectorLength_exact, bind_Normal. reflexivity.
Qed.

(** X2: in exact arithmetic [normalizeVectors] turns a vector with a
    component other than zero into a vector of the same number of
    components and of length 1; with [excludeLastComponent] the last
    component is set aside, the others are normalized and the last is put
    back as it was. *)
Theorem normalizeVectors_unit u :
  Exists (fun x => x <> 0) u ->
  exists n,
    normalizeVectors u false = ([], Normal (Some n))
    /\ length n = length u
    /\ vectorLength n = ([], Normal 1)
    /\ forall w, normalizeVectors (u ++ [w]) true = ([], Normal (Some (n ++ [w]))).
Proof.
  intros Hex. exists (map (fun x => x / R_sqrt.sqrt (dot u u)) u).
  assert (0 < dot u u) as Hpos by (apply (dot_acc_pos u 0 Hex)).
  assert (R_sqrt.sqrt (dot u u) <> 0) as Hl.
  { pose proof (R_sqrt.sqrt_lt_R0 _ Hpos). lra. }
  split; [apply normalizeVectors_exact|]. split; [apply length_map|]. split.
  - rewrite vectorLength_exact. do 2 f_equal. unfold dot at 1.
    change (fold_left add (zip_with mul ?a ?b) (ofZ 0))
      with (fold_left Rplus (zip_with Rmult a b) 0).
    replace 0 with (0 / (R_sqrt.sqrt (dot u u) * R_sqrt.sqrt (dot u u))) at 1 by (field; exact Hl).
    rewrite (dot_scaled u _ Hl 0).
    change (fold_left Rplus (zip_with Rmult u u) 0) with (dot u u).
    rewrite R_sqrt.sqrt_sqrt by lra.
    replace (dot u u / dot u u) with 1 by (field; lra). apply R_sqrt.sqrt_1.
  - intros w. unfold normalizeVectors.
    rewrite last_snoc, removelast_last.
    rewrite vectorLength_exact, bind_Normal. reflexivity.
Qed.

End ExactVectors.

(** ** The cross product *)

Section Cross.
Context {T : Type} `{Number T}.

(** X3: [crossProduct] refuses an argument that is [undefined] or has fewer
    than three components: it writes the diagnostic of the first such
    argument and returns [undefined]. *)
Theorem crossProduct_short (u v : option (list T)) :
  let short (w : option (list T)) :=
    match w with Some w => length w <? 3 | None => true end in
  let first := "WebGL Utilities: crossProduct(): First argument is not a vector of minimum size, 3." in
  let second := "WebGL Utilities: crossProduct(): Second argument is not a vector of minimum size, 3." in
  (short u = true -> crossProduct u v = ([first], Normal None))
  /\ (short u = false -> short v = true ->
      crossProduct u v = ([second], Normal None))
  /\ (short u = false -> short v = false ->
      exists w, crossProduct u v = ([], Normal (Some w)) /\ length w = 3).
Proof.
  cbn zeta. split; [|split].
  - destruct u as [u|], v as [v|]; cbn [crossProduct]; intros Hu;
      try rewrite Hu; reflexivity.
  - destruct u as [u|], v as [v|]; cbn [crossProduct]; intros Hu Hv;
      try discriminate Hu; rewrite Hu; try rewrite Hv; reflexivity.
  - destruct u as [u|], v as [v|]; cbn [crossProduct]; intros Hu Hv;
      try discriminate Hu; try discriminate Hv. rewrite Hu, Hv.
    destruct u as [|a [|b [|c u]]]; try discriminate Hu.
    destruct v as [|x [|y [|z v]]]; try discriminate Hv.
    eexists. split; reflexivity.
Qed.

End Cross.

Section ExactCross.
Local Open Scope R_scope.

(** X4: in exact arithmetic the cross product of two vectors of three or
    more components is computed from their first three components, is
    orthogonal to both, and changes sign when the arguments are
    exchanged. *)
Theorem crossProduct_orthogonal (u v : list R) :
  (3 <= length u)%nat -> (3 <= length v)%nat ->
  exists w,
    crossProduct (Some u) (Some v) = ([], Normal (Some w))
    /\ crossProduct (Some (take 3 u)) (Some (take 3 v)) = ([], Normal (Some w))
    /\ dotProduct w (take 3 u) = ([], Normal 0)
    /\ dotProduct w (take 3 v) = ([], Normal 0)
    /\ crossProduct (Some v) (Some u) = ([], Normal (Some (negateElements w))).
Proof.
  intros Hu Hv.
  destruct u as [|a [|b [|c u]]]; cbn in Hu; try lia.
  destruct v as [|x [|y [|z v]]]; cbn in Hv; try lia.
  eexists. split; [Exact.evaluate; reflexivity|].
  split; [Exact.evaluate; reflexivity|].
  repeat split; Exact.evaluate; repeat f_equal; ring.
Qed.

End ExactCross.

(** ** Mixing two vectors *)

Section MixVectors.
Context {T : Type} `{Number T}.

Lemma push_loop_zip (a b : T) (u : list T) :
  forall (pu pv v acc : list T),
    length pu = length pv -> length u <= length v ->
    for_each (seq (length pu) (length u))
      (fun result k =>
         bind (lift2 add (lift2 mul (ret a) (item (pu ++ u) k))
                         (lift2 mul (ret b) (item (pv ++ v) k)))
              (fun x => ret (result ++ [x]))) acc
    = ([], Normal (acc ++ zip_with (fun x y => (a * x + b * y)%num) u v)).
Proof.
  induction u as [|x u IH]; intros pu pv v acc Hp Hlen.
  - cbn. rewrite app_nil_r. reflexivity.
  - destruct v as [|y v]; [cbn in Hlen; lia|].
    cbn [length seq for_each zip_with].
    unfold item at 1 2. rewrite list_lookup_middle by reflexivity.
    rewrite list_lookup_middle by exact Hp.
    rewrite !lift2_ret, bind_ret. unfold ret at 1. rewrite bind_Normal.
    replace (pu ++ x :: u) with ((pu ++ [x]) ++ u) by (rewrite <- app_assoc; reflexivity).
    replace (pv ++ y :: v) with ((pv ++ [y]) ++ v) by (rewrite <- app_assoc; reflexivity).
    replace (S (length pu)) with (length (pu ++ [x])) by (rewrite length_app; cbn; lia).
    rewrite IH by (rewrite ?length_app; cbn in *; lia).
    rewrite <- app_assoc. reflexivity.
Qed.

Lemma mixVectors_zip (u v : list T) (s : T) :
  length u = length v ->
  mixVectors u v (Num s)
  = ([], Normal (Some (zip_with (fun x y => ((ofZ 1 - s) * x + s * y)%num) u v))).
Proof.
  intros Hlen. unfold mixVectors, push_loop, for_loop.
  rewrite Hlen, Nat.eqb_refl. cbn [negb]. rewrite <- Hlen.
  rewrite (push_loop_zip _ _ u [] [] v []) by (cbn; lia).
  rewrite bind_Normal. reflexivity.
Qed.

End MixVectors.

Section ExactMix.
Local Open Scope R_scope.

Lemma zip_with_left (u : list R) : forall v,
  length u = length v -> zip_with (fun x y => (1 - 0) * x + 0 * y) u v = u.
Proof.
  induction u as [|x u IH]; intros [|y v] Hlen; try discriminate; [reflexivity|].
  cbn. rewrite IH by (cbn in Hlen; lia). f_equal. ring.
Qed.

Lemma zip_with_right (u : list R) : forall v,
  length u = length v -> zip_with (fun x y => (1 - 1) * x + 1 * y) u v = v.
Proof.
  induction u as [|x u IH]; intros [|y v] Hlen; try discriminate; [reflexivity|].
  cbn. rewrite IH by (cbn in Hlen; lia). f_equal. ring.
Qed.

(** X5: [mixVectors] interpolates component by component between two
    vectors of equal length, [(1 - s) * u[i] + s * v[i]]: in exact
    arithmetic [s = 0] gives the first vector and [s = 1] the second.
    Vectors of different lengths, or a third argument that is not a number,
    get a diagnostic and [undefined]. *)
Theorem mixVectors_interpolates :
  (forall (u v : list R) (s : R),
      length u = length v ->
      mixVectors u v (Num s)
      = ([], Normal (Some (zip_with (fun x y => (1 - s) * x + s * y) u v)))
      /\ mixVectors u v (Num 0) = ([], Normal (Some u))
      /\ mixVectors u v (Num 1) = ([], Normal (Some v)))
  /\ (forall (u v : list R) (s : R),
        length u <> length v -> reported_undefined (mixVectors u v (Num s)))
  /\ (forall (u v xs : list R), reported_undefined (mixVectors u v (Arr xs))).
Proof.
  split; [|split].
  - intros u v s Hlen. rewrite !mixVectors_zip by exact Hlen. repeat split.
    + do 3 f_equal. apply (zip_with_left u v Hlen).
    + do 3 f_equal. apply (zip_with_right u v Hlen).
  - intros u v s Hlen. unfold mixVectors.
    destruct (Nat.eqb_spec (length u) (length v)); [contradiction|].
    cbn [negb]. unfold reported_undefined. rewrite bind_console_error. eauto.
  - intros u v xs. unfold mixVectors, reported_undefined.
    rewrite bind_console_error. eauto.
Qed.

End ExactMix.

(** ** Equality of vectors and matrices *)

Section ExactEquivalence.
Local Open Scope R_scope.

Lemma Req_bool_true (x y : R) : Req_bool x y = true <-> x = y.
Proof.
  unfold Req_bool. destruct (Req_dec_T x y); split; try done.
Qed.

Lemma all2_Req (u : list R) : forall v,
  length u = length v -> (all2 Req_bool u v = true <-> u = v).
Proof.
  induction u as [|x u IH]; intros [|y v] Hlen; try discriminate; [done|].
  cbn. rewrite andb_true_iff, Req_bool_true, IH by (cbn in Hlen; lia).
  split; [intros [-> ->]; reflexivity|intros [= -> ->]; done].
Qed.

Lemma all2_rows (ur : list (list R)) : forall vr,
  length ur = length vr ->
  (all2 (fun r s => same_length r s && all2 looseEq r s) ur vr = true <-> ur = vr).
Proof.
  induction ur as [|r ur IH]; intros [|s vr] Hlen; try discriminate; [done|].
  cbn [all2]. rewrite andb_true_iff, IH by (cbn in Hlen; lia).
  rewrite andb_true_iff. unfold same_length. rewrite Nat.eqb_eq. split.
  - intros [[Hl Hrs] ->]. apply (all2_Req r s Hl) in Hrs. subst. reflexivity.
  - intros [= -> ->]. split; [|reflexivity]. split; [reflexivity|].
    apply all2_Req; reflexivity.
Qed.

(** X6: in exact arithmetic [linearEquivalence] decides equality: on two
    vectors, and on two tagged matrices, whatever their shapes, it returns
    [true] exactly when they are the same; a tagged matrix and a value
    without the tag are never equivalent, whatever they hold. *)
Theorem linearEquivalence_decides :
  (forall u v : list R,
      exists b, linearEquivalence (Vector u) (Vector v) = ([], Normal b)
                /\ (b = true <-> u = v))
  /\ (forall ur vr : list (list R),
        exists b, linearEquivalence (Nested true ur) (Nested true vr)
                  = ([], Normal b)
                  /\ (b = true <-> ur = vr))
  /\ (forall (ur : list (list R)) (v : array R),
        matrix_of v = false ->
        linearEquivalence (Nested true ur) v = ([], Normal false)
        /\ linearEquivalence v (Nested true ur) = ([], Normal false)).
Proof.
  split; [|split].
  - intros u v. unfold linearEquivalence. cbn [length_of].
    destruct (Nat.eqb_spec (length u) (length v)) as [Hlen|Hlen]; cbn [negb].
    + eexists. split; [reflexivity|]. apply all2_Req, Hlen.
    + exists false. split; [reflexivity|]. split; [done|].
      intros ->. contradiction.
  - intros ur vr. unfold linearEquivalence. cbn [length_of].
    destruct (Nat.eqb_spec (length ur) (length vr)) as [Hlen|Hlen]; cbn [negb].
    + eexists. split; [reflexivity|]. apply all2_rows, Hlen.
    + exists false. split; [reflexivity|]. split; [done|].
      intros ->. contradiction.
  - intros ur v Hv. unfold linearEquivalence.
    destruct v as [vs|[] vr]; try discriminate Hv; cbn [length_of].
    + split; [destruct (length ur =? length vs)|destruct (length vs =? length ur)];
        reflexivity.
    + split; [destruct (length ur =? length vr)|destruct (length vr =? length ur)];
        reflexivity.
Qed.

End ExactEquivalence.

Section FloatEquivalence.
Context {host : Binary64.Host}.

Lemma forallb_pointwise {A} (f g : A -> bool) (l : list A) :
  (forall x, f x = g x) -> forallb f l = forallb g l.
Proof. intros E. induction l as [|x l IH]; cbn; [|rewrite E, IH]; reflexivity. Qed.

Lemma all2_diagonal {A} (p : A -> A -> bool) (u : list A) :
  all2 p u u = forallb (fun x => p x x) u.
Proof. induction u as [|x u IH]; cbn; [|rewrite IH]; reflexivity. Qed.

(** X7: on binary64 numbers a vector is equivalent to itself exactly when
    none of its components is NaN, and so is a tagged matrix. *)
Theorem linearEquivalence_nan :
  (forall u : list float,
      linearEquivalence (Vector u) (Vector u)
      = ([], Normal (forallb (fun x => negb (is_nan x)) u)))
  /\ (forall rows : list (list float),
        linearEquivalence (Nested true rows) (Nested true rows)
        = ([], Normal (forallb (fun x => negb (is_nan x)) (concat rows)))).
Proof.
  split.
  - intros u. unfold linearEquivalence. cbn [length_of].
    rewrite Nat.eqb_refl. cbn [negb]. rewrite all2_diagonal.
    unfold ret. do 2 f_equal. apply forallb_pointwise. intros x. unfold is_nan.
    rewrite negb_involutive. reflexivity.
  - intros rows. unfold linearEquivalence. cbn [length_of].
    rewrite Nat.eqb_refl. cbn [negb]. rewrite all2_diagonal.
    unfold ret. do 2 f_equal.
    induction rows as [|r rows IH]; [reflexivity|].
    cbn [forallb concat]. rewrite forallb_app, IH. f_equal.
    unfold same_length. rewrite Nat.eqb_refl, all2_diagonal. cbn [andb].
    apply forallb_pointwise. intros x. unfold is_nan.
    rewrite negb_involutive. reflexivity.
Qed.

End FloatEquivalence.

(** ** Addition and subtraction of matching operands *)

Section Matching.
Context {T : Type} `{Number T}.

Lemma elementwise_rows_zip op msg : forall ur vr result : list (list T),
  length ur = length vr -> all2 same_length ur vr = true ->
  elementwise_rows op msg ur vr result
  = ([], Normal (Some (Nested true (result ++ zip_with (zip_with op) ur vr)))).
Proof.
  induction ur as [|r ur IH]; intros [|s vr] result Hlen Hrows; try discriminate.
  - cbn. rewrite app_nil_r. reflexivity.
  - cbn in Hrows. apply andb_true_iff in Hrows as [Hrs Hrows].
    cbn [elementwise_rows zip_with]. rewrite Hrs. cbn [negb].
    rewrite IH by (cbn in Hlen; lia || assumption).
    rewrite <- app_assoc. reflexivity.
Qed.

Lemma all2_same_length_zip (op : T -> T -> T) (ur : list (list T)) : forall vr,
  length ur = length vr -> all2 same_length ur vr = true ->
  all2 same_length (zip_with (zip_with op) ur vr) vr = true.
Proof.
  induction ur as [|r ur IH]; intros [|s vr] Hlen Hrows; try discriminate;
    [reflexivity|].
  cbn in Hrows. apply andb_true_iff in Hrows as [Hrs Hrows]. cbn.
  rewrite IH by (cbn in Hlen; lia || assumption). rewrite andb_true_r.
  unfold same_length in *. apply Nat.eqb_eq in Hrs. apply Nat.eqb_eq.
  rewrite length_zip_with_l_eq; [exact Hrs|exact Hrs].
Qed.

Lemma all2_same_length_sym (ur : list (list T)) : forall vr,
  length ur = length vr -> all2 same_length ur vr = true ->
  all2 same_length vr ur = true.
Proof.
  induction ur as [|r ur IH]; intros [|s vr] Hlen Hrows; try discriminate;
    [reflexivity|].
  cbn in *. apply andb_true_iff in Hrows as [Hrs Hrows].
  rewrite IH by (lia || assumption). rewrite andb_true_r.
  unfold same_length in *. rewrite Nat.eqb_sym. exact Hrs.
Qed.

End Matching.

Section ExactSum.
Local Open Scope R_scope.

Lemma zip_add_sub (u : list R) : forall v,
  length u = length v -> zip_with Rminus (zip_with Rplus u v) v = u.
Proof.
  induction u as [|x u IH]; intros [|y v] Hlen; try discriminate; [reflexivity|].
  cbn. rewrite IH by (cbn in Hlen; lia). f_equal. ring.
Qed.

Lemma zip_add_comm (u : list R) : forall v,
  zip_with Rplus u v = zip_with Rplus v u.
Proof.
  induction u as [|x u IH]; intros [|y v]; try reflexivity.
  cbn. rewrite IH. f_equal. ring.
Qed.

Lemma zip_rows_add_sub (ur : list (list R)) : forall vr,
  length ur = length vr -> all2 same_length ur vr = true ->
  zip_with (zip_with Rminus) (zip_with (zip_with Rplus) ur vr) vr = ur.
Proof.
  induction ur as [|r ur IH]; intros [|s vr] Hlen Hrows; try discriminate;
    [reflexivity|].
  cbn in Hrows. apply andb_true_iff in Hrows as [Hrs Hrows]. cbn.
  rewrite IH by (cbn in Hlen; lia || assumption). f_equal.
  apply zip_add_sub. apply Nat.eqb_eq, Hrs.
Qed.

Lemma zip_rows_add_comm (ur : list (list R)) : forall vr,
  zip_with (zip_with Rplus) ur vr = zip_with (zip_with Rplus) vr ur.
Proof.
  induction ur as [|r ur IH]; intros [|s vr]; try reflexivity.
  cbn. rewrite IH. f_equal. apply zip_add_comm.
Qed.

(** X8: in exact arithmetic, on two vectors of equal length and on two
    tagged matrices of equal shape (square or not), [linearAddition]
    returns the sum without a diagnostic, the sum does not depend on the
    order of the operands, and [linearSubtract] of the second operand from
    the sum gives the first operand back. *)
Theorem linearAddition_linearSubtract_round_trip :
  (forall u v : list R,
      length u = length v ->
      exists w,
        linearAddition (Vector u) (Vector v) = ([], Normal (Some (Vector w)))
        /\ linearAddition (Vector v) (Vector u) = ([], Normal (Some (Vector w)))
        /\ linearSubtract (Vector w) (Vector v) = ([], Normal (Some (Vector u))))
  /\ (forall ur vr : list (list R),
        length ur = length vr -> all2 same_length ur vr = true ->
        exists wr,
          linearAddition (Nested true ur) (Nested true vr)
          = ([], Normal (Some (Nested true wr)))
          /\ linearAddition (Nested true vr) (Nested true ur)
             = ([], Normal (Some (Nested true wr)))
          /\ linearSubtract (Nested true wr) (Nested true vr)
             = ([], Normal (Some (Nested true ur)))).
Proof.
  split.
  - intros u v Hlen. exists (zip_with Rplus u v).
    unfold linearAddition, linearSubtract, elementwise. cbn [length_of].
    rewrite Hlen, Nat.eqb_refl. cbn [negb].
    rewrite length_zip_with_l_eq, Hlen, Nat.eqb_refl by exact Hlen. cbn [negb].
    split; [reflexivity|]. split.
    + unfold ret. do 4 f_equal. apply zip_add_comm.
    + unfold ret. do 4 f_equal. apply zip_add_sub, Hlen.
  - intros ur vr Hlen Hrows. exists (zip_with (zip_with Rplus) ur vr).
    unfold linearAddition, linearSubtract, elementwise.
    rewrite Hlen, Nat.eqb_refl. cbn [negb].
    rewrite length_zip_with_l_eq, Hlen, Nat.eqb_refl by exact Hlen. cbn [negb].
    rewrite !elementwise_rows_zip;
      auto using all2_same_length_sym, all2_same_length_zip.
    + split; [reflexivity|]. split.
      * do 4 f_equal. apply zip_rows_add_comm.
      * do 4 f_equal. apply zip_rows_add_sub; assumption.
    + rewrite length_zip_with_l_eq; assumption.
Qed.

End ExactSum.

(** ** Multiplication of operands of different lengths *)

Section MultiplyMismatch.
Context {T : Type} `{Number T}.

(** X9: [linearMultiply] on two operands of different lengths, whichever
    of them carries the matrix tag, and on two tagged matrices with as many
    rows but a row of different length, writes a diagnostic and returns
    [undefined]. *)
Theorem linearMultiply_mismatched (u v : array T) :
  length_of u <> length_of v
  \/ (exists ur vr, u = Nested true ur /\ v = Nested true vr
                    /\ all2 same_length ur vr = false) ->
  reported_undefined (linearMultiply u v).
Proof.
  unfold reported_undefined, linearMultiply. intros [Hlen|(ur & vr & -> & -> & Hrows)].
  - destruct (Nat.eqb_spec (length_of u) (length_of v)) as [|_]; [contradiction|].
    rewrite andb_false_r. cbn [negb].
    destruct u as [us|[] ur], v as [vs|[] vr]; cbn [length_of] in *;
      try (rewrite bind_console_error; eauto; fail).
    destruct (Nat.eqb_spec (length ur) (length vr)); [contradiction|].
    cbn [negb]. rewrite bind_console_error. eauto.
  - rewrite Hrows. cbn [negb].
    destruct (negb (length ur =? length vr)); rewrite bind_console_error; eauto.
Qed.

End MultiplyMismatch.

(** ** A matrix applied to a vector *)

Section Apply.
Context {T : Type} `{Number T}.

Lemma map_seq_lookup {A B} (f : A -> B) (d : A) (l : list A) : forall pre,
  map (fun i => f (default d ((pre ++ l) !! i))) (seq (length pre) (length l))
  = map f l.
Proof.
  induction l as [|x l IH]; intros pre; [reflexivity|].
  cbn [length seq map]. rewrite list_lookup_middle by reflexivity. cbn [default].
  f_equal.
  replace (pre ++ x :: l) with ((pre ++ [x]) ++ l) by (rewrite <- app_assoc; reflexivity).
  replace (S (length pre)) with (length (pre ++ [x])) by (rewrite length_app; cbn; lia).
  apply IH.
Qed.

(** X10: a tagged [n]x[n] matrix, of any size [n], times a vector of [n]
    components is the vector of the dot products of the rows with that
    vector, as [dotProduct] computes them. *)
Theorem linearMultiply_vector n (rows : list (list T)) (v : list T) :
  square n rows = true -> length v = n ->
  linearMultiply (Nested true rows) (Vector v)
  = ([], Normal (Some (Vector (map (fun r => dot r v) rows))))
  /\ Forall (fun r => dotProduct r v = ([], Normal (dot r v))) rows.
Proof.
  intros Hs Hv. apply square_iff in Hs as [Hn Hrows]. split.
  - unfold linearMultiply. cbn [matrix_of length_of].
    rewrite Hn, Hv, Nat.eqb_refl. cbn [andb].
    rewrite (push_loop_ok n _ (fun i => dot (default [] (rows !! i)) v)).
    + rewrite bind_Normal. unfold ret. do 4 f_equal.
      rewrite <- Hn. apply (map_seq_lookup (fun r => dot r v) [] rows []).
    + intros i Hi. destruct (lookup_lt_is_Some_2 rows i) as [r Hr]; [lia|].
      cbn [entry number_at]. rewrite Hr. cbn [default].
      assert (length r = n) as Hr' by (rewrite Forall_lookup in Hrows; eauto).
      unfold sum_loop, for_loop, dot. rewrite <- Hr'.
      apply (sum_loop_zip r [] [] v); [reflexivity|lia].
  - rewrite Forall_lookup in Hrows. apply Forall_lookup. intros i r Hr.
    apply dotProduct_same_length. rewrite (Hrows i r Hr). symmetry. exact Hv.
Qed.

End Apply.

(** ** Transposition *)

Section Transposition.
Context {T : Type} `{Number T}.

Lemma map_seq_pointwise {A} (f g : nat -> A) n :
  (forall i, i < n -> f i = g i) -> map f (seq 0 n) = map g (seq 0 n).
Proof.
  intros E. apply map_ext_in. intros i Hi. apply in_seq in Hi. apply E. lia.
Qed.

Lemma rectangular_iff n k (rows : list (list T)) :
  rectangular n k rows = true
  <-> length rows = n /\ Forall (fun r => length r = k) rows.
Proof.
  unfold rectangular. rewrite andb_true_iff, Nat.eqb_eq, forallb_forall, Forall_forall.
  split; intros [Hl Hr]; (split; [exact Hl|]); intros r Hin.
  - apply Nat.eqb_eq, Hr. apply list_elem_of_In, Hin.
  - apply Nat.eqb_eq, Hr. apply list_elem_of_In, Hin.
Qed.

Lemma entry_in_range n k (rows : list (list T)) i j :
  rectangular n k rows = true -> i < n -> j < k ->
  entry (Nested true rows) i j = ([], Normal (get rows i j)).
Proof.
  intros Hs Hi Hj. apply rectangular_iff in Hs as [Hn Hrows].
  destruct (lookup_lt_is_Some_2 rows i) as [r Hr]; [lia|].
  assert (length r = k) as Hlen by (rewrite Forall_lookup in Hrows; eauto).
  destruct (lookup_lt_is_Some_2 r j) as [x Hx]; [lia|].
  unfold get, cell. cbn [entry]. rewrite Hr. cbn. unfold item. rewrite Hx.
  reflexivity.
Qed.

Lemma row_length_in_range n k (rows : list (list T)) i :
  rectangular n k rows = true -> i < n ->
  row_length (Nested true rows) i = ([], Normal k).
Proof.
  intros Hs Hi. apply rectangular_iff in Hs as [Hn Hrows].
  destruct (lookup_lt_is_Some_2 rows i) as [r Hr]; [lia|].
  cbn [row_length]. rewrite Hr. rewrite Forall_lookup in Hrows.
  rewrite (Hrows i r Hr). reflexivity.
Qed.

Lemma transposeMatrix_square n (rows : list (list T)) :
  square n rows = true ->
  transposeMatrix (Nested true rows)
  = ([], Normal (Some (Nested true (transpose rows)))).
Proof.
  intros Hs. assert (length rows = n) as Hn by (apply square_iff in Hs; tauto).
  unfold transposeMatrix, transpose. cbn [matrix_of negb length_of].
  rewrite (push_loop_ok _ _ (fun i => map (fun j => get rows j i) (seq 0 (length rows)))).
  - rewrite bind_Normal. reflexivity.
  - intros i Hi. rewrite (row_length_in_range n n) by (assumption || lia).
    rewrite bind_Normal, <- Hn. apply push_loop_ok. intros j Hj.
    apply (entry_in_range n n); (assumption || lia).
Qed.

Lemma get_transpose n (rows : list (list T)) i j :
  length rows = n -> i < n -> j < n -> get (transpose rows) i j = get rows j i.
Proof.
  intros Hn Hi Hj. unfold get at 1, cell, transpose.
  rewrite list_lookup_fmap, lookup_seq_lt by lia. cbn.
  rewrite list_lookup_fmap, lookup_seq_lt by lia. reflexivity.
Qed.

Lemma length_transpose (rows : list (list T)) :
  length (transpose rows) = length rows.
Proof. unfold transpose. rewrite length_map, length_seq. reflexivity. Qed.

Lemma transpose_involutive n (rows : list (list T)) :
  square n rows = true ->
  square n (transpose rows) = true /\ transpose (transpose rows) = rows.
Proof.
  intros Hs. apply square_iff in Hs as [Hn Hrows]. split.
  - apply square_iff. rewrite length_transpose. split; [exact Hn|].
    unfold transpose. apply Forall_forall. intros r Hr.
    apply list_elem_of_In, in_map_iff in Hr as (i & <- & _).
    rewrite length_map, length_seq. exact Hn.
  - unfold transpose at 1. rewrite length_transpose, Hn.
    rewrite (map_seq_pointwise _ (fun i => default [] (rows !! i))).
    + rewrite <- Hn. etrans; [apply (map_seq_lookup (fun r => r) [] rows [])|].
      apply List.map_id.
    + intros i Hi. destruct (lookup_lt_is_Some_2 rows i) as [r Hr]; [lia|].
      rewrite Hr. cbn [default].
      assert (length r = n) as Hlen by (rewrite Forall_lookup in Hrows; eauto).
      rewrite (map_seq_pointwise _ (fun j => default (ofZ 0) (r !! j))).
      * rewrite <- Hlen. etrans; [apply (map_seq_lookup (fun x => x) (ofZ 0) r [])|].
        apply List.map_id.
      * intros j Hj. rewrite (get_transpose n) by assumption.
        unfold get, cell. rewrite Hr. reflexivity.
Qed.

(** X11: transposing a tagged square matrix of any size exchanges rows and
    columns and returns a tagged square matrix of that size; transposing
    the result gives the matrix back.  A value without the tag gets a
    diagnostic and [undefined]. *)
Theorem transposeMatrix_round_trip :
  (forall n (rows : list (list T)),
      square n rows = true ->
      exists t,
        transposeMatrix (Nested true rows) = ([], Normal (Some (Nested true t)))
        /\ square n t = true
        /\ (forall i j, i < n -> j < n -> get t i j = get rows j i)
        /\ transposeMatrix (Nested true t)
           = ([], Normal (Some (Nested true rows))))
  /\ (forall m : array T,
        matrix_of m = false -> reported_undefined (transposeMatrix m)).
Proof.
  split.
  - intros n rows Hs. exists (transpose rows).
    destruct (transpose_involutive n rows Hs) as [Hst Hinv].
    split; [apply (transposeMatrix_square n), Hs|]. split; [exact Hst|].
    split.
    + intros i j Hi Hj. apply (get_transpose n); try assumption.
      apply square_iff in Hs. tauto.
    + rewrite (transposeMatrix_square n) by exact Hst. rewrite Hinv. reflexivity.
  - intros m Hm. unfold transposeMatrix, reported_undefined. rewrite Hm.
    cbn [negb]. rewrite bind_console_error. eauto.
Qed.

Lemma for_each_push_throw {A} (value : nat -> Js A) (g : nat -> A) e len :
  forall s k (acc : list A),
    s <= k < s + len ->
    (forall i, s <= i < k -> value i = ([], Normal (g i))) ->
    value k = ([], Throw e) ->
    for_each (seq s len)
      (fun result i => bind (value i) (fun x => ret (result ++ [x]))) acc
    = ([], Throw e).
Proof.
  induction len as [|len IH]; intros s k acc Hk Hv He; [lia|].
  cbn [seq for_each]. destruct (Nat.eq_dec s k) as [->|Hne].
  - rewrite He. reflexivity.
  - rewrite (Hv s) by lia. rewrite bind_Normal. unfold ret at 1.
    rewrite bind_Normal. apply (IH (S s) k); [lia| |exact He].
    intros i Hi. apply Hv. lia.
Qed.

(** X12: transposing a tagged matrix that has more columns than rows
    throws a [TypeError], without a diagnostic: the loop reads a row past
    the last one. *)
Theorem transposeMatrix_wide n k (rows : list (list T)) :
  rectangular n k rows = true -> 0 < n < k ->
  transposeMatrix (Nested true rows) = ([], Throw TypeError).
Proof using All.
  intros Hs Hnk. assert (length rows = n) as Hn by (apply rectangular_iff in Hs; tauto).
  unfold transposeMatrix. cbn [matrix_of negb length_of]. rewrite Hn.
  unfold push_loop at 1, for_loop.
  rewrite (for_each_push_throw _ (fun _ => []) TypeError n 0 0); [reflexivity|lia| |].
  - intros i Hi. lia.
  - rewrite (row_length_in_range n k) by (assumption || lia). rewrite bind_Normal.
    unfold push_loop, for_loop.
    apply (for_each_push_throw _ (fun j => get rows j 0) TypeError k 0 n); [lia| |].
    + intros j Hj. apply (entry_in_range n k); (assumption || lia).
    + cbn [entry]. rewrite (lookup_ge_None_2 rows n) by lia. reflexivity.
Qed.

End Transposition.

(** ** Flattening an array of rows *)

Section FlattenRows.
Context {T : Type} `{Number T}.

Lemma store_beyond (xs : list T) : forall (floats : list T) idx,
  length floats <= idx -> store floats idx xs = floats.
Proof.
  induction xs as [|x xs IH]; intros floats idx Hidx; [reflexivity|].
  cbn [store]. rewrite list_insert_ge by exact Hidx. apply IH. lia.
Qed.

Lemma store_general (xs : list T) : forall pre zs : list T,
  store (pre ++ zs) (length pre) xs
  = pre ++ take (length zs) (map toFloat32 xs) ++ drop (length xs) zs.
Proof.
  induction xs as [|x xs IH]; intros pre zs.
  - cbn. rewrite take_nil, drop_0. reflexivity.
  - destruct zs as [|z zs].
    + rewrite app_nil_r. cbn [length take drop].
      rewrite store_beyond by lia. rewrite ?drop_nil, ?app_nil_r. reflexivity.
    + cbn [store map length take drop].
      replace (length pre) with (length pre + 0) at 1 by lia.
      rewrite insert_app_r. cbn [list_insert insert].
      change (pre ++ toFloat32 x :: zs) with (pre ++ [toFloat32 x] ++ zs).
      rewrite app_assoc.
      replace (S (length pre)) with (length (pre ++ [toFloat32 x]))
        by (rewrite length_app; cbn; lia).
      rewrite IH, <- app_assoc. reflexivity.
Qed.

Lemma length_concat_rectangular k (rows : list (list T)) :
  Forall (fun r => length r = k) rows -> length (concat rows) = length rows * k.
Proof.
  induction 1 as [|r rows Hr _ IH]; [reflexivity|].
  cbn. rewrite length_app, IH, Hr. reflexivity.
Qed.

Lemma lookup_concat_rectangular k (rows : list (list T)) :
  Forall (fun r => length r = k) rows ->
  forall i j, j < k -> concat rows !! (i * k + j) = cell rows i j.
Proof.
  induction 1 as [|r rows Hr _ IH]; intros i j Hj; [destruct i; reflexivity|].
  cbn [concat]. destruct i as [|i].
  - cbn. rewrite lookup_app_l by lia. reflexivity.
  - rewrite lookup_app_r by (cbn; nia).
    replace (S i * k + j - length r) with (i * k + j) by (cbn; nia).
    rewrite IH by exact Hj. reflexivity.
Qed.

(** X13: [linearFlatten] of an array of rows without the matrix tag, as
    the demo passes its points and colours, lays the rows out one after
    the other, untransposed: [n] rows of [k] entries give [n * k] floats
    with the entry [j] of row [i] at index [i * k + j].  The length of the
    buffer is fixed by the first row: entries beyond it are dropped, and
    what the rows do not fill stays zero. *)
Theorem linearFlatten_rows :
  (forall (r : list T) (rows : list (list T)),
      let size := length (r :: rows) * length r in
      linearFlatten (Nested false (r :: rows))
      = ([], Normal (take size (map toFloat32 (concat (r :: rows)))
                     ++ replicate (size - length (concat (r :: rows))) (ofZ 0))))
  /\ (forall n k (rows : list (list T)),
        rectangular n k rows = true ->
        linearFlatten (Nested false rows)
        = ([], Normal (map toFloat32 (concat rows)))
        /\ length (concat rows) = n * k
        /\ forall i j, i < n -> j < k ->
             map toFloat32 (concat rows) !! (i * k + j)
             = toFloat32 <$> cell rows i j).
Proof.
  assert (forall (r : list T) (rows : list (list T)),
      linearFlatten (Nested false (r :: rows))
      = ([], Normal (take (length (r :: rows) * length r)
                       (map toFloat32 (concat (r :: rows)))
                     ++ replicate (length (r :: rows) * length r
                                   - length (concat (r :: rows))) (ofZ 0)))) as General.
  { intros r rows. unfold linearFlatten. cbn [matrix_of]. rewrite bind_ret.
    cbn [length_of].
    pose proof (store_general (concat (r :: rows)) []
                  (replicate (length (r :: rows) * length r) (ofZ 0))) as E.
    cbn [app] in E. change (length (@nil T)) with 0 in E.
    unfold ret. do 2 f_equal. etrans; [exact E|].
    rewrite length_replicate, drop_replicate. reflexivity. }
  split; [exact General|].
  intros n k rows Hs. apply rectangular_iff in Hs as [Hn Hrows].
  pose proof (length_concat_rectangular k rows Hrows) as Hlen.
  split; [|split].
  - destruct rows as [|r rows]; [reflexivity|]. rewrite General.
    assert (length r = k) as -> by (inversion Hrows; assumption).
    rewrite Hlen, Nat.sub_diag. cbn [replicate]. rewrite app_nil_r.
    rewrite take_ge by (rewrite length_map, Hlen; lia). reflexivity.
  - rewrite Hlen, Hn. reflexivity.
  - intros i j Hi Hj. rewrite list_lookup_fmap.
    rewrite (lookup_concat_rectangular k) by assumption. reflexivity.
Qed.

End FlattenRows.

(** ** The cube *)

Section CubeFaces.
Context {host : Binary64.Host}.
Local Open Scope float_scope.

Lemma vertices_lookup i :
  (i < 8)%nat ->
  exists p, vertices !! i = Some p /\ length p = 4%nat /\ p !! 3%nat = Some 1.
Proof.
  intros Hi. do 8 (destruct i as [|i]; [eexists; repeat split; reflexivity|]).
  lia.
Qed.

Lemma vertexColors_lookup a :
  (a < 8)%nat -> exists q, vertexColors !! a = Some q /\ length q = 4%nat.
Proof.
  intros Ha. do 8 (destruct a as [|a]; [eexists; repeat split; reflexivity|]).
  lia.
Qed.

Lemma quad_lookup (a b c d : nat) (st : scene) pa pb pc pd q :
  vertices !! a = Some pa -> vertices !! b = Some pb ->
  vertices !! c = Some pc -> vertices !! d = Some pd ->
  vertexColors !! a = Some q ->
  quad a b c d st
  = ([], Normal {| points := points st ++ [pa; pb; pc; pa; pc; pd];
                   colors := colors st ++ replicate 6 q |}).
Proof.
  intros Ea Eb Ec Ed Eq.
  unfold quad. cbn [for_each]. rewrite Ea, Eb, Ec, Ed, Eq.
  rewrite !bind_ret. cbn [points colors]. unfold ret.
  rewrite <- !app_assoc. reflexivity.
Qed.

(** X14: [quad] with four indices below 8 appends six points, each of four
    components with the fourth equal to 1, and six times the colour of its
    first index, and leaves what the two arrays held before in place. *)
Theorem quad_appends (a b c d : nat) (st : scene) :
  (a < 8)%nat -> (b < 8)%nat -> (c < 8)%nat -> (d < 8)%nat ->
  exists ps q,
    quad a b c d st
    = ([], Normal {| points := points st ++ ps;
                     colors := colors st ++ replicate 6 q |})
    /\ length ps = 6%nat
    /\ Forall homogeneous_point ps
    /\ vertexColors !! a = Some q /\ length q = 4%nat.
Proof.
  intros Ha Hb Hc Hd.
  destruct (vertices_lookup a Ha) as (pa & Ea & Hpa).
  destruct (vertices_lookup b Hb) as (pb & Eb & Hpb).
  destruct (vertices_lookup c Hc) as (pc & Ec & Hpc).
  destruct (vertices_lookup d Hd) as (pd & Ed & Hpd).
  destruct (vertexColors_lookup a Ha) as (q & Eq & Hq).
  exists [pa; pb; pc; pa; pc; pd], q. split.
  - apply quad_lookup; assumption.
  - split; [reflexivity|]. split; [|split; assumption].
    repeat constructor; tauto.
Qed.

(** X15: [colorCube] appends to the two arrays, whatever they hold, as many
    points and as many colours as [render] draws vertices, [NumVertices];
    every point has four components, so that the buffer [init] sends for
    them holds four floats for each vertex; and the six vertices of a
    face all have the same colour. *)
Theorem colorCube_appends (st : scene) :
  exists ps cs floats,
    colorCube st
    = ([], Normal {| points := points st ++ ps; colors := colors st ++ cs |})
    /\ length ps = NumVertices /\ length cs = NumVertices
    /\ Forall homogeneous_point ps
    /\ linearFlatten (Nested false ps) = ([], Normal floats)
    /\ length floats = (4 * NumVertices)%nat
    /\ forall face i, (face < 6)%nat -> (i < 6)%nat ->
         cs !! (6 * face + i)%nat = cs !! (6 * face)%nat.
Proof.
  unfold colorCube.
  erewrite (quad_lookup 1 0 3 2) by reflexivity. rewrite bind_Normal.
  erewrite (quad_lookup 2 3 7 6) by reflexivity. rewrite bind_Normal.
  erewrite (quad_lookup 3 0 4 7) by reflexivity. rewrite bind_Normal.
  erewrite (quad_lookup 6 5 1 2) by reflexivity. rewrite bind_Normal.
  erewrite (quad_lookup 4 5 6 7) by reflexivity. rewrite bind_Normal.
  erewrite (quad_lookup 5 4 0 1) by reflexivity.
  cbn [points colors app]. rewrite <- !app_assoc.
  do 3 eexists. split; [reflexivity|].
  split; [reflexivity|]. split; [reflexivity|].
  split; [repeat constructor|].
  split; [reflexivity|]. split; [reflexivity|].
  intros face i Hface Hi.
  do 6 (destruct face as [|face]; [do 6 (destruct i as [|i]; [reflexivity|]); lia|]).
  lia.
Qed.

End CubeFaces.

(** Reduces an equation between two results to the equations between
    their entries. *)
Ltac entrywise :=
  repeat match goal with
         | |- (_, _) = (_, _) => f_equal
         | |- Normal _ = Normal _ => f_equal
         | |- Some _ = Some _ => f_equal
         | |- Vector _ = Vector _ => f_equal
         | |- Nested _ _ = Nested _ _ => f_equal
         | |- _ :: _ = _ :: _ => f_equal
         end.

(** ** Matrices in exact arithmetic *)

Section ExactMatrices.
Local Open Scope R_scope.

Implicit Types a b c : list (list R).

(** X16: in exact arithmetic the product of matrices of dimension 2, 3 or
    4 is associative, and applying a product to a vector is applying its
    factors one after the other, the right one first. *)
Theorem linearMultiply_associative d a b c (v : list R) :
  dimension d = true ->
  square d a = true -> square d b = true -> square d c = true ->
  length v = d ->
  exists ab bc bv,
    linearMultiply (Nested true a) (Nested true b)
    = ([], Normal (Some (Nested true ab)))
    /\ linearMultiply (Nested true b) (Nested true c)
       = ([], Normal (Some (Nested true bc)))
    /\ linearMultiply (Nested true b) (Vector v)
       = ([], Normal (Some (Vector bv)))
    /\ linearMultiply (Nested true ab) (Nested true c)
       = linearMultiply (Nested true a) (Nested true bc)
    /\ linearMultiply (Nested true ab) (Vector v)
       = linearMultiply (Nested true a) (Vector bv).
Proof.
  intros Hd Ha Hb Hc Hv. unfold square in Ha, Hb, Hc.
  dimensions Hd; shape Ha; shape Hb; shape Hc; shape Hv.
  all: do 3 eexists.
  all: split; [Exact.evaluate; reflexivity|].
  all: split; [Exact.evaluate; reflexivity|].
  all: split; [Exact.evaluate; reflexivity|].
  all: split; Exact.evaluate; entrywise; ring.
Qed.

(** X17: in exact arithmetic the determinant of a product of matrices of
    dimension 2, 3 or 4 is the product of their determinants, the
    determinant of the transposed matrix is that of the matrix, and the
    determinant of the identity is 1. *)
Theorem calculateDeterminant_multiplicative d a b :
  dimension d = true -> square d a = true -> square d b = true ->
  exists ab ta,
    linearMultiply (Nested true a) (Nested true b)
    = ([], Normal (Some (Nested true ab)))
    /\ transposeMatrix (Nested true a) = ([], Normal (Some (Nested true ta)))
    /\ calculateDeterminant (Nested true a)
       = ([], Normal (Some (determinant d a)))
    /\ calculateDeterminant (Nested true ab)
       = ([], Normal (Some (determinant d a * determinant d b)))
    /\ calculateDeterminant (Nested true ta)
       = ([], Normal (Some (determinant d a)))
    /\ calculateDeterminant (mat d []) = ([], Normal (Some 1)).
Proof.
  intros Hd Ha Hb. unfold square in Ha, Hb.
  dimensions Hd; shape Ha; shape Hb.
  all: do 2 eexists.
  all: split; [Exact.evaluate; reflexivity|].
  all: split; [Exact.evaluate; reflexivity|].
  all: repeat split; Exact.evaluate; entrywise; ring.
Qed.

(** X18: in exact arithmetic the inverse that [calculateInverseMatrix]
    returns for a matrix of dimension 2, 3 or 4 with a determinant other
    than zero is also a left inverse, its determinant is the inverse of
    the determinant, and it solves the system: the inverse applied to
    the image of a vector is the vector. *)
Theorem calculateInverseMatrix_left_inverse d a (v : list R) :
  dimension d = true -> square d a = true -> length v = d ->
  determinant d a <> 0 ->
  exists inverse av,
    calculateInverseMatrix (Nested true a)
    = ([], Normal (Some (Nested true inverse)))
    /\ linearMultiply (Nested true inverse) (Nested true a)
       = ([], Normal (Some (identity d)))
    /\ calculateDeterminant (Nested true inverse)
       = ([], Normal (Some (/ determinant d a)))
    /\ linearMultiply (Nested true a) (Vector v)
       = ([], Normal (Some (Vector av)))
    /\ linearMultiply (Nested true inverse) (Vector av)
       = ([], Normal (Some (Vector v))).
Proof.
  intros Hd Ha Hv Hnz. unfold square in Ha.
  dimensions Hd; shape Ha; shape Hv.
  all: Exact.evaluate_in Hnz.
  all: do 2 eexists.
  all: split; [Exact.evaluate; reflexivity|].
  all: split; [Exact.evaluate; entrywise; field; intros E; apply Hnz; (etrans; [|exact E]); ring|].
  all: split; [Exact.evaluate; entrywise; field; intros E; apply Hnz; (etrans; [|exact E]); ring|].
  all: split; [Exact.evaluate; reflexivity|].
  all: Exact.evaluate; entrywise; field; intros E; apply Hnz; (etrans; [|exact E]); ring.
Qed.

End ExactMatrices.

(** ** Transformations in exact arithmetic *)

Section ExactTransformations.
Local Open Scope R_scope.
Local Open Scope js_scope.

(** X19: [translateMatrix] takes the offsets as three numbers or as one
    array, in which case the other arguments are not read.  In exact
    arithmetic the matrix moves a point (p, q, r, 1) by the offsets and
    leaves a direction (p, q, r, 0) as it is; the product of two
    translations is the translation by the sum of the offsets; and the
    inverse is the translation by the opposite offsets. *)
Theorem translateMatrix_composes (x y z x' y' z' p q r w : R) :
  translateMatrix (Arr [x; y; z]) y' z' = translateMatrix (Num x) y z
  /\ (t <- translateMatrix (Num x) y z ;;
      linearMultiply t (Vector [p; q; r; w]))
     = ([], Normal (Some (Vector [p + x * w; q + y * w; r + z * w; w])))
  /\ (t <- translateMatrix (Num x) y z ;;
      t' <- translateMatrix (Num x') y' z' ;;
      linearMultiply t t')
     = (s <- translateMatrix (Num (x + x')) (y + y') (z + z') ;; ret (Some s))
  /\ (t <- translateMatrix (Num x) y z ;; calculateInverseMatrix t)
     = (s <- translateMatrix (Num (- x)) (- y) (- z) ;; ret (Some s)).
Proof.
  split; [reflexivity|].
  repeat split; Exact.evaluate; entrywise; try field; lra.
Qed.

(** X20: in exact arithmetic [scalingMatrix] multiplies the first three
    components of a vector by its factors and keeps the fourth; the
    product of two scalings is the scaling by the products of the
    factors; the determinant is the product of the three factors; and
    when none of them is zero the inverse is the scaling by their
    inverses. *)
Theorem scalingMatrix_composes (x y z x' y' z' p q r w : R) :
  scalingMatrix (Arr [x; y; z]) y' z' = scalingMatrix (Num x) y z
  /\ (m <- scalingMatrix (Num x) y z ;;
      linearMultiply m (Vector [p; q; r; w]))
     = ([], Normal (Some (Vector [x * p; y * q; z * r; w])))
  /\ (m <- scalingMatrix (Num x) y z ;;
      m' <- scalingMatrix (Num x') y' z' ;;
      linearMultiply m m')
     = (s <- scalingMatrix (Num (x * x')) (y * y') (z * z') ;; ret (Some s))
  /\ (m <- scalingMatrix (Num x) y z ;; calculateDeterminant m)
     = ([], Normal (Some (x * y * z)))
  /\ (x <> 0 -> y <> 0 -> z <> 0 ->
      (m <- scalingMatrix (Num x) y z ;; calculateInverseMatrix m)
      = (s <- scalingMatrix (Num (/ x)) (/ y) (/ z) ;; ret (Some s))).
Proof.
  split; [reflexivity|].
  repeat split; try intros Hx Hy Hz; Exact.evaluate; entrywise; try ring.
  all: field; repeat split; assumption.
Qed.

Lemma degrees_plus (a b : R) :
  (a + b) * PI / 180 = a * PI / 180 + b * PI / 180.
Proof. field. Qed.

Lemma degrees_opp (a : R) : - a * PI / 180 = - (a * PI / 180).
Proof. field. Qed.

Lemma cos2_sin2 (x : R) : cos x * cos x + sin x * sin x = 1.
Proof. pose proof (sin2_cos2 x) as E. unfold Rsqr in E. lra. Qed.

(** X21: in exact arithmetic the rotations about one coordinate axis
    compose by adding their angles; the transposed rotation and the
    inverse rotation are the rotation by the opposite angle; the angle 0
    gives the identity; and the determinant is 1. *)
Theorem rotations_compose (rotate : R -> array R) (a b : R) :
  In rotate [rotateX; rotateY; rotateZ] ->
  linearMultiply (rotate a) (rotate b) = ([], Normal (Some (rotate (a + b))))
  /\ transposeMatrix (rotate a) = ([], Normal (Some (rotate (- a))))
  /\ calculateInverseMatrix (rotate a) = ([], Normal (Some (rotate (- a))))
  /\ rotate 0 = identity 4
  /\ calculateDeterminant (rotate a) = ([], Normal (Some 1)).
Proof.
  intros Hin.
  assert (cos ((a + b) * PI / 180)
          = cos (a * PI / 180) * cos (b * PI / 180)
            - sin (a * PI / 180) * sin (b * PI / 180)) as Hcos
    by (rewrite degrees_plus; apply cos_plus).
  assert (sin ((a + b) * PI / 180)
          = sin (a * PI / 180) * cos (b * PI / 180)
            + cos (a * PI / 180) * sin (b * PI / 180)) as Hsin
    by (rewrite degrees_plus; apply sin_plus).
  assert (cos (- a * PI / 180) = cos (a * PI / 180)) as Hcos'
    by (rewrite degrees_opp; apply cos_neg).
  assert (sin (- a * PI / 180) = - sin (a * PI / 180)) as Hsin'
    by (rewrite degrees_opp; apply sin_neg).
  assert (cos (0 * PI / 180) = 1) as Hcos0
    by (replace (0 * PI / 180) with 0 by field; apply cos_0).
  assert (sin (0 * PI / 180) = 0) as Hsin0
    by (replace (0 * PI / 180) with 0 by field; apply sin_0).
  pose proof (cos2_sin2 (a * PI / 180)) as Hone.
  cbn [In] in Hin. destruct Hin as [<-|[<-|[<-|[]]]].
  all: repeat split; Exact.evaluate;
    rewrite ?Hcos, ?Hsin, ?Hcos', ?Hsin', ?Hcos0, ?Hsin0; entrywise;
    clear Hcos Hsin Hcos' Hsin' Hcos0 Hsin0;
    generalize dependent (cos (a * PI / 180)); intros c;
    generalize dependent (sin (a * PI / 180)); intros s Hone;
    try ring.
  all: try lra.
  all: match goal with
       | |- context [_ / ?D] =>
           replace D with 1
             by (transitivity (c * c + s * s); [symmetry; exact Hone|ring])
       end.
  all: rewrite Rdiv_1_r; nra.
Qed.

Lemma sqrt_axis (k : R) : 0 < k -> R_sqrt.sqrt (0 + k * k) = k.
Proof.
  intros Hk. replace (0 + k * k) with (k * k) by ring.
  apply R_sqrt.sqrt_square. lra.
Qed.

(** X22: [rotateMatrix] takes its axis as one array or as three numbers.
    In exact arithmetic, about a positive multiple of a coordinate axis it
    is the rotation [rotateX], [rotateY] or [rotateZ] by the same angle;
    and about any axis other than zero it leaves the axis where it is. *)
Theorem rotateMatrix_axis (angle a1 a2 a3 w k : R) :
  0 < k -> Exists (fun x => x <> 0) [a1; a2; a3] ->
  rotateMatrix angle [Num a1; Num a2; Num a3]
  = rotateMatrix angle [Arr [a1; a2; a3]]
  /\ rotateMatrix angle [Arr [k; 0; 0]] = ([], Normal (rotateX angle))
  /\ rotateMatrix angle [Arr [0; k; 0]] = ([], Normal (rotateY angle))
  /\ rotateMatrix angle [Arr [0; 0; k]] = ([], Normal (rotateZ angle))
  /\ (m <- rotateMatrix angle [Arr [a1; a2; a3]] ;;
      linearMultiply m (Vector [a1; a2; a3; w]))
     = ([], Normal (Some (Vector [a1; a2; a3; w]))).
Proof.
  intros Hk Hex. split; [reflexivity|].
  assert (k <> 0) as Hk0 by lra.
  split; [|split; [|split]].
  - unfold rotateMatrix. rewrite bind_ret, normalizeVectors_exact, bind_Normal.
    Exact.evaluate. replace (0 + k * k + 0 * 0 + 0 * 0) with (0 + k * k) by ring.
    rewrite (sqrt_axis k Hk). entrywise; field; exact Hk0.
  - unfold rotateMatrix. rewrite bind_ret, normalizeVectors_exact, bind_Normal.
    Exact.evaluate. replace (0 + 0 * 0 + k * k + 0 * 0) with (0 + k * k) by ring.
    rewrite (sqrt_axis k Hk). entrywise; field; exact Hk0.
  - unfold rotateMatrix. rewrite bind_ret, normalizeVectors_exact, bind_Normal.
    Exact.evaluate. replace (0 + 0 * 0 + 0 * 0 + k * k) with (0 + k * k) by ring.
    rewrite (sqrt_axis k Hk). entrywise; field; exact Hk0.
  - assert (0 < dot [a1; a2; a3] [a1; a2; a3]) as Hpos
      by (apply (dot_acc_pos [a1; a2; a3] 0 Hex)).
    pose proof (R_sqrt.sqrt_lt_R0 _ Hpos) as Hl.
    pose proof (R_sqrt.sqrt_sqrt (dot [a1; a2; a3] [a1; a2; a3]) (Rlt_le _ _ Hpos)) as Hsq.
    unfold rotateMatrix. rewrite bind_ret, normalizeVectors_exact, bind_Normal.
    Exact.evaluate_in Hl. Exact.evaluate_in Hsq. Exact.evaluate.
    generalize dependent (R_sqrt.sqrt (0 + a1 * a1 + a2 * a2 + a3 * a3)). intros l Hl Hsq.
    generalize (cos (angle * PI / 180)) (sin (angle * PI / 180)). intros c s.
    assert (l <> 0) as Hl0 by lra.
    entrywise.
    all: try ring.
    all: pose proof (f_equal (fun t => a1 * (1 - c) * t) Hsq) as H1.
    all: pose proof (f_equal (fun t => a2 * (1 - c) * t) Hsq) as H2.
    all: pose proof (f_equal (fun t => a3 * (1 - c) * t) Hsq) as H3.
    all: cbv beta in H1, H2, H3.
    all: field_simplify_eq; [|exact Hl0]; nra.
Qed.

End ExactTransformations.

Section ExactView.
Local Open Scope R_scope.
Local Open Scope js_scope.

Lemma linearEquivalence_differ (u v : list R) :
  u <> v -> linearEquivalence (Vector u) (Vector v) = ([], Normal false).
Proof.
  intros Hne. unfold linearEquivalence. cbn [length_of].
  destruct (Nat.eqb_spec (length u) (length v)) as [Hlen|Hlen]; [|reflexivity].
  cbn [negb]. destruct (all2 looseEq u v) eqn:E; [|reflexivity].
  apply (all2_Req u v Hlen) in E. contradiction.
Qed.

Lemma sum_squares_zero (x y z : R) :
  x * x + y * y + z * z = 0 -> x = 0 /\ y = 0 /\ z = 0.
Proof. intros E. repeat split; nra. Qed.

Lemma sum_squares_pos (x y z : R) :
  [x; y; z] <> [0; 0; 0] -> 0 < 0 + x * x + y * y + z * z.
Proof.
  intros Hne. destruct (Rle_lt_dec (0 + x * x + y * y + z * z) 0) as [Hle|]; [|assumption].
  exfalso. apply Hne.
  destruct (sum_squares_zero x y z) as (-> & -> & ->); [nra|reflexivity].
Qed.

(** X23: [viewMatrixAt] writes a diagnostic and returns [undefined] when
    one of its arguments does not have three components, and returns the
    identity when the eye is the point looked at.  Otherwise, in exact
    arithmetic and with an up direction that is not along the line of
    sight (no vector of length zero is normalized), its result is a rigid
    motion: the last row is (0, 0, 0, 1), the first three components of
    the other rows are unit vectors orthogonal to each other, the eye goes
    to the origin, and the point looked at goes onto the negative z axis,
    as far from the origin as it is from the eye. *)
Theorem viewMatrixAt_looks_at (ex ey ez ax ay az ux uy uz : R) :
  let dx := ax - ex in
  let dy := ay - ey in
  let dz := az - ez in
  (forall eye at_ up : array R,
      length_of eye <> 3%nat \/ length_of at_ <> 3%nat \/ length_of up <> 3%nat ->
      reported_undefined (viewMatrixAt eye at_ up))
  /\ viewMatrixAt (Vector [ex; ey; ez]) (Vector [ex; ey; ez]) (Vector [ux; uy; uz])
     = ([], Normal (Some (identity 4)))
  /\ ([ex; ey; ez] <> [ax; ay; az] ->
      [dy * uz - dz * uy; dz * ux - dx * uz; dx * uy - dy * ux] <> [0; 0; 0] ->
      exists n1 n2 n3 u1 u2 u3 v1 v2 v3 tn tu tv distance,
      let view :=
        Nested true [[n1; n2; n3; tn]; [u1; u2; u3; tu]; [v1; v2; v3; tv];
                     [0; 0; 0; 1]] in
      let n := [n1; n2; n3] in
      let u := [u1; u2; u3] in
      let v := [v1; v2; v3] in
      viewMatrixAt (Vector [ex; ey; ez]) (Vector [ax; ay; az]) (Vector [ux; uy; uz])
      = ([], Normal (Some view))
      /\ (dot n n = 1 /\ dot u u = 1 /\ dot v v = 1)
      /\ (dot n u = 0 /\ dot n v = 0 /\ dot u v = 0)
      /\ linearMultiply view (Vector [ex; ey; ez; 1])
         = ([], Normal (Some (Vector [0; 0; 0; 1])))
      /\ vectorLength [dx; dy; dz] = ([], Normal distance)
      /\ linearMultiply view (Vector [ax; ay; az; 1])
         = ([], Normal (Some (Vector [0; 0; - distance; 1])))).
Proof.
  intros dx dy dz. split; [|split].
  { intros eye at_ up Hlen. unfold viewMatrixAt.
    destruct (Nat.eqb_spec (length_of eye) 3) as [He|He]; cbn [negb];
      [|eexists; reflexivity].
    destruct (Nat.eqb_spec (length_of at_) 3) as [Ha|Ha]; cbn [negb];
      [|eexists; reflexivity].
    destruct (Nat.eqb_spec (length_of up) 3) as [Hu|Hu]; cbn [negb];
      [|eexists; reflexivity].
    tauto. }
  { unfold viewMatrixAt. cbn [length_of length Nat.eqb negb].
    assert (linearEquivalence (Vector [ex; ey; ez]) (Vector [ex; ey; ez])
            = ([], Normal true)) as ->; [|reflexivity].
    unfold linearEquivalence. cbn [length_of length Nat.eqb negb].
    unfold ret. do 2 f_equal. apply all2_Req; reflexivity. }
  intros Hne Hup.
  unfold viewMatrixAt. cbn [length_of length Nat.eqb negb].
  rewrite (linearEquivalence_differ _ _ Hne), bind_Normal.
  do 12 eexists. exists (R_sqrt.sqrt (0 + dx * dx + dy * dy + dz * dz)). cbv zeta.
  split; [Exact.evaluate; reflexivity|].
  assert ([dx; dy; dz] <> [0; 0; 0]) as Hd.
  { intros [= E1 E2 E3]. apply Hne. unfold dx, dy, dz in *.
    f_equal; [|f_equal; [|f_equal]]; lra. }
  pose proof (sum_squares_pos _ _ _ Hd) as HLpos.
  pose proof (R_sqrt.sqrt_lt_R0 _ HLpos) as HL.
  pose proof (R_sqrt.sqrt_sqrt _ (Rlt_le _ _ HLpos)) as HLL.
  set (L := R_sqrt.sqrt (0 + dx * dx + dy * dy + dz * dz)) in *.
  set (v1 := dx / L) in *. set (v2 := dy / L) in *. set (v3 := dz / L) in *.
  assert (dx = v1 * L /\ dy = v2 * L /\ dz = v3 * L) as (Hdx & Hdy & Hdz)
    by (unfold v1, v2, v3; repeat split; field; lra).
  assert (v1 * v1 + v2 * v2 + v3 * v3 = 1) as Hv.
  { apply (Rmult_eq_reg_r (L * L)); [|nra]. rewrite Rmult_1_l.
    transitivity (0 + dx * dx + dy * dy + dz * dz);
      [rewrite Hdx, Hdy, Hdz; ring|symmetry; exact HLL]. }
  set (c1 := v2 * uz - v3 * uy) in *.
  set (c2 := v3 * ux - v1 * uz) in *.
  set (c3 := v1 * uy - v2 * ux) in *.
  assert ([c1; c2; c3] <> [0; 0; 0]) as Hc.
  { intros [= E1 E2 E3]. apply Hup. rewrite Hdx, Hdy, Hdz.
    unfold c1, c2, c3 in *. f_equal; [|f_equal; [|f_equal]]; nra. }
  pose proof (sum_squares_pos _ _ _ Hc) as HMpos.
  pose proof (R_sqrt.sqrt_lt_R0 _ HMpos) as HM.
  pose proof (R_sqrt.sqrt_sqrt _ (Rlt_le _ _ HMpos)) as HMM.
  set (M := R_sqrt.sqrt (0 + c1 * c1 + c2 * c2 + c3 * c3)) in *.
  set (n1 := c1 / M) in *. set (n2 := c2 / M) in *. set (n3 := c3 / M) in *.
  assert (c1 = n1 * M /\ c2 = n2 * M /\ c3 = n3 * M) as (Hc1 & Hc2 & Hc3)
    by (unfold n1, n2, n3; repeat split; field; lra).
  assert (n1 * n1 + n2 * n2 + n3 * n3 = 1) as Hn.
  { apply (Rmult_eq_reg_r (M * M)); [|nra]. rewrite Rmult_1_l.
    transitivity (0 + c1 * c1 + c2 * c2 + c3 * c3);
      [rewrite Hc1, Hc2, Hc3; ring|symmetry; exact HMM]. }
  assert (n1 * v1 + n2 * v2 + n3 * v3 = 0) as Hnv.
  { apply (Rmult_eq_reg_r M); [|lra]. rewrite Rmult_0_l.
    transitivity (c1 * v1 + c2 * v2 + c3 * v3);
      [rewrite Hc1, Hc2, Hc3; ring|unfold c1, c2, c3; ring]. }
  set (e1 := n2 * v3 - n3 * v2) in *.
  set (e2 := n3 * v1 - n1 * v3) in *.
  set (e3 := n1 * v2 - n2 * v1) in *.
  assert (0 + e1 * e1 + e2 * e2 + e3 * e3 = 1) as He.
  { transitivity ((n1 * n1 + n2 * n2 + n3 * n3) * (v1 * v1 + v2 * v2 + v3 * v3)
                  - (n1 * v1 + n2 * v2 + n3 * v3) * (n1 * v1 + n2 * v2 + n3 * v3));
      [unfold e1, e2, e3; ring|rewrite Hn, Hv, Hnv; ring]. }
  assert (R_sqrt.sqrt (0 + e1 * e1 + e2 * e2 + e3 * e3) = 1) as HK
    by (rewrite He; apply R_sqrt.sqrt_1).
  assert (n1 * e1 + n2 * e2 + n3 * e3 = 0) as Hne' by (unfold e1, e2, e3; ring).
  assert (e1 * v1 + e2 * v2 + e3 * v3 = 0) as Hev by (unfold e1, e2, e3; ring).
  assert (ax = ex + v1 * L /\ ay = ey + v2 * L /\ az = ez + v3 * L)
    as (Hax & Hay & Haz) by (unfold dx, dy, dz in *; repeat split; lra).
  Exact.evaluate.
  fold dx dy dz L v1 v2 v3. fold c1 c2 c3 M n1 n2 n3. fold e1 e2 e3.
  rewrite !HK, !Rdiv_1_r.
  clearbody e1 e2 e3 n1 n2 n3 M c1 c2 c3 v1 v2 v3 L. clear Hne Hup Hd.
  pose proof (f_equal (fun t => L * t) Hv) as HvL. cbv beta in HvL.
  repeat split; entrywise; try reflexivity; try nra.
  all: rewrite ?Hax, ?Hay, ?Haz; nra.
Qed.

End ExactView.

(** ** Projections in exact arithmetic *)

Section ExactProjections.
Local Open Scope R_scope.
Local Open Scope js_scope.

Lemma Req_bool_false (x y : R) : x <> y -> Req_bool x y = false.
Proof. intros Hne. unfold Req_bool. destruct (Req_dec_T x y); done. Qed.

(** X24: in exact arithmetic the matrix of [buildOrthographicMatrix], for
    a box that is not flat, maps the box onto the cube from -1 to 1: the
    corner (left, bottom, -near) goes to (-1, -1, -1), the corner
    (right, top, -far) to (1, 1, 1) and the centre to the origin. *)
Theorem buildOrthographicMatrix_maps_box (left right bottom top near far : R) :
  left <> right -> bottom <> top -> near <> far ->
  (m <- buildOrthographicMatrix left right bottom top near far ;;
   linearMultiply m (Vector [left; bottom; - near; 1]))
  = ([], Normal (Some (Vector [-1; -1; -1; 1])))
  /\ (m <- buildOrthographicMatrix left right bottom top near far ;;
      linearMultiply m (Vector [right; top; - far; 1]))
     = ([], Normal (Some (Vector [1; 1; 1; 1])))
  /\ (m <- buildOrthographicMatrix left right bottom top near far ;;
      linearMultiply m
        (Vector [(left + right) / 2; (bottom + top) / 2; - (near + far) / 2; 1]))
     = ([], Normal (Some (Vector [0; 0; 0; 1]))).
Proof.
  intros Hw Hh Hd. unfold buildOrthographicMatrix.
  change (@looseEq R _) with Req_bool.
  rewrite !Req_bool_false by assumption.
  repeat split; Exact.evaluate; entrywise; field; lra.
Qed.

(** X25: in exact arithmetic the matrix of [buildPerspectiveMatrix] puts
    the depth [- z] of a point into the fourth component, scales x by
    [f / aspect] and y by [f], where [f] is the cotangent of half the
    field of view given in degrees, and maps the depths [near] and [far]
    to a third component of [- near] and [far]: -1 and 1 once divided by
    the fourth component. *)
Theorem buildPerspectiveMatrix_depth (fovY aspect near far x y z : R) :
  tan (fovY * PI / 180 / 2) <> 0 -> aspect <> 0 -> near <> far ->
  let f := 1 / tan (fovY * PI / 180 / 2) in
  exists depth,
    (m <- buildPerspectiveMatrix fovY aspect near far ;;
     linearMultiply m (Vector [x; y; z; 1]))
    = ([], Normal (Some (Vector [f / aspect * x; f * y; depth; - z])))
    /\ (z = - near -> depth = - near)
    /\ (z = - far -> depth = far).
Proof.
  intros Htan Haspect Hd f. eexists. split.
  - Exact.evaluate. entrywise; try reflexivity; unfold f; ring.
  - split; intros ->; field; lra.
Qed.

End ExactProjections.

(** ** The normal matrix *)

Section ExactNormals.
Local Open Scope R_scope.
Local Open Scope js_scope.

(** X26: in exact arithmetic [normalizeMatrix] of a matrix of dimension 2,
    3 or 4 with a determinant other than zero is the transposed inverse,
    and it transforms normals: the dot product of a vector [n] taken
    through it with a vector [v] taken through the matrix is the dot
    product of [n] and [v].  With the flag, from dimension 3 on, the
    result is the upper left 3x3 block of it, tagged as a matrix. *)
Theorem normalizeMatrix_normals d (a : list (list R)) (n v : list R) :
  dimension d = true -> square d a = true ->
  length n = d -> length v = d ->
  determinant d a <> 0 ->
  exists inverse normal,
    calculateInverseMatrix (Nested true a)
    = ([], Normal (Some (Nested true inverse)))
    /\ transposeMatrix (Nested true inverse)
       = ([], Normal (Some (Nested true normal)))
    /\ normalizeMatrix (Nested true a) false
       = ([], Normal (Some (Nested true normal)))
    /\ (n' <- linearMultiply (Nested true normal) (Vector n) ;;
        v' <- linearMultiply (Nested true a) (Vector v) ;;
        match n', v' with
        | Some (Vector n'), Some (Vector v') => dotProduct n' v'
        | _, _ => unmodelled
        end)
       = dotProduct n v
    /\ ((3 <=? d)%nat = true ->
        exists block,
          normalizeMatrix (Nested true a) true
          = ([], Normal (Some (Nested true block)))
          /\ square 3 block = true
          /\ forall i j, (i < 3)%nat -> (j < 3)%nat ->
               cell block i j = cell normal i j).
Proof.
  intros Hd Ha Hn Hv Hnz. unfold square in Ha.
  dimensions Hd; shape Ha; shape Hn; shape Hv.
  all: Exact.evaluate_in Hnz.
  all: do 2 eexists.
  all: split; [Exact.evaluate; reflexivity|].
  all: split; [Exact.evaluate; reflexivity|].
  all: split; [Exact.evaluate; entrywise; field;
               intros E; apply Hnz; (etrans; [|exact E]); ring|].
  all: split; [Exact.evaluate; entrywise; field;
               intros E; apply Hnz; (etrans; [|exact E]); ring|].
  all: intros Hflag; try discriminate Hflag.
  all: eexists; split; [Exact.evaluate; reflexivity|].
  all: split; [reflexivity|].
  all: intros i j Hi Hj.
  all: repeat (destruct i as [|i]; [|try lia]).
  all: repeat (destruct j as [|j]; [|try lia]).
  all: Exact.evaluate; f_equal; field.
  all: intros E; apply Hnz; (etrans; [|exact E]); ring.
Qed.

End ExactNormals.

(** ** Values that are not matrices *)

Section Untagged.
Context {T : Type} `{Number T}.
Local Open Scope js_scope.

(** X27: [calculateDeterminant] and [calculateInverseMatrix] do not stop
    at a value without the matrix tag: on an array of rows they write
    their diagnostic and go on to the result they give for the tagged
    matrix of the same rows.  On a value of a length other than 2, 3 or 4
    both return [undefined].  [normalizeMatrix] of a value without the tag
    throws a [TypeError], after the diagnostic of [transposeMatrix]. *)
Theorem calculateDeterminant_untagged :
  (forall rows : list (list T),
      calculateDeterminant (Nested false rows)
      = (console_error WebGL_Utilities
           "calculateDeterminant(): Variable is not a matrix." ;;;
         calculateDeterminant (Nested true rows))
      /\ calculateInverseMatrix (Nested false rows)
         = (console_error WebGL_Utilities
              "calculateInverseMatrix(): Variable is not a matrix." ;;;
            calculateInverseMatrix (Nested true rows)))
  /\ (forall m : array T,
        (length_of m <? 2) || (4 <? length_of m) = true ->
        calculateDeterminant m
        = (if matrix_of m then []
           else ["WebGL Utilities: calculateDeterminant(): Variable is not a matrix."],
           Normal None)
        /\ calculateInverseMatrix m
           = (if matrix_of m then []
              else ["WebGL Utilities: calculateInverseMatrix(): Variable is not a matrix."],
              Normal None))
  /\ (forall (m : array T) flag,
        matrix_of m = false ->
        normalizeMatrix m flag
        = (["WebGL Utilities: transposeMatrix(): Cannot transpose a non-matrix."],
           Throw TypeError)).
Proof.
  split; [|split].
  - intros rows. unfold calculateDeterminant, calculateInverseMatrix.
    cbn [matrix_of negb length_of]. rewrite !bind_ret. split; reflexivity.
  - intros m Hlen. unfold calculateDeterminant, calculateInverseMatrix.
    apply orb_true_iff in Hlen.
    destruct (Nat.eqb_spec (length_of m) 2) as [E|_];
      [rewrite E in Hlen; destruct Hlen; discriminate|].
    destruct (Nat.eqb_spec (length_of m) 3) as [E|_];
      [rewrite E in Hlen; destruct Hlen; discriminate|].
    destruct (Nat.eqb_spec (length_of m) 4) as [E|_];
      [rewrite E in Hlen; destruct Hlen; discriminate|].
    destruct (matrix_of m); split; reflexivity.
  - intros m flag Hm. unfold normalizeMatrix, transposeMatrix.
    rewrite Hm. reflexivity.
Qed.

(** X28: the constructors read their arguments as one flat list, numbers
    and arrays alike.  A vector constructor always returns its number of
    components: [vec4] of a vector of three components appends 1, [vec3]
    of one of two appends 0, and the shorter constructor takes the
    leading components back.  A matrix constructor of dimension 2, 3 or 4
    takes the rows of a matrix back to the matrix, whether they are given
    as row vectors or entry by entry in the order of the rows, and one
    number gives the matrix with that number on the diagonal. *)
Theorem constructors_round_trip :
  (forall args : list (arg T),
      length (vec2 args) = 2 /\ length (vec3 args) = 3 /\ length (vec4 args) = 4)
  /\ (forall u : list T,
        length u = 2 ->
        vec3 [Arr u] = u ++ [ofZ 0] /\ vec2 [Arr (vec3 [Arr u])] = u)
  /\ (forall u : list T,
        length u = 3 ->
        vec4 [Arr u] = u ++ [ofZ 1] /\ vec3 [Arr (vec4 [Arr u])] = u)
  /\ (forall d (rows : list (list T)),
        dimension d = true -> square d rows = true ->
        mat d (map Arr rows) = Nested true rows
        /\ mat d (map Num (concat rows)) = Nested true rows)
  /\ (forall d (x : T),
        dimension d = true ->
        mat d [Num x]
        = Nested true
            (map (fun i => map (fun j => if i =? j then x else ofZ 0) (seq 0 d))
                 (seq 0 d))).
Proof.
  split; [|split; [|split; [|split]]].
  - intros args. unfold vec2, vec3, vec4.
    destruct (objectToArray args) as [|a [|b [|c [|e l]]]]; repeat split; reflexivity.
  - intros u Hu. shape Hu. split; reflexivity.
  - intros u Hu. shape Hu. split; reflexivity.
  - intros d rows Hd Hs. unfold square in Hs. dimensions Hd; shape Hs.
    all: split; reflexivity.
  - intros d x Hd. dimensions Hd; reflexivity.
Qed.

End Untagged.

(** ** Instances of the further properties *)

Section FurtherExamples.
Local Open Scope R_scope.
Local Open Scope js_scope.

Lemma dotProduct_longer_witness :
  dotProduct [1; 2] [3; 4; 5]
  = (["WebGL Utilities dotProduct(): Vectors are not the same dimension."],
     Normal (dot [1; 2] [3; 4])).
Proof. apply (dotProduct_longer [1; 2] [3; 4; 5]). cbn. lia. Defined.

Lemma normalizeVectors_unit_witness :
  exists n,
    normalizeVectors [3; 4] false = ([], Normal (Some n))
    /\ length n = 2%nat
    /\ vectorLength n = ([], Normal 1)
    /\ forall w, normalizeVectors ([3; 4] ++ [w]) true
                 = ([], Normal (Some (n ++ [w]))).
Proof. apply (normalizeVectors_unit [3; 4]). apply Exists_cons_hd. lra. Defined.

Lemma crossProduct_orthogonal_witness :
  exists w,
    crossProduct (Some [1; 0; 0]) (Some [0; 1; 0]) = ([], Normal (Some w))
    /\ dotProduct w [1; 0; 0] = ([], Normal 0)
    /\ dotProduct w [0; 1; 0] = ([], Normal 0).
Proof.
  destruct (crossProduct_orthogonal [1; 0; 0] [0; 1; 0])
    as (w & Hw & _ & Hu & Hv & _).
  - cbn. lia.
  - cbn. lia.
  - exists w. split; [exact Hw|]. split; [exact Hu|exact Hv].
Defined.

Lemma linearMultiply_mismatched_witness :
  reported_undefined (linearMultiply (Vector [1; 2]) (Vector [1; 2; 3])).
Proof.
  apply (linearMultiply_mismatched (Vector [1; 2]) (Vector [1; 2; 3])).
  left. cbn. lia.
Defined.

Lemma linearMultiply_vector_witness :
  linearMultiply (Nested true [[1; 2]; [3; 4]]) (Vector [1; 1])
  = ([], Normal (Some (Vector [dot [1; 2] [1; 1]; dot [3; 4] [1; 1]]))).
Proof.
  destruct (linearMultiply_vector 2 [[1; 2]; [3; 4]] [1; 1]) as (Hmul & _);
    [reflexivity|reflexivity|exact Hmul].
Defined.

Lemma transposeMatrix_wide_witness :
  transposeMatrix (Nested true [[1; 2]]) = ([], Throw TypeError).
Proof.
  apply (transposeMatrix_wide 1 2 [[1; 2]]); [reflexivity|lia].
Defined.

Lemma linearMultiply_associative_witness :
  exists ab bc,
    linearMultiply (Nested true [[1; 2]; [3; 4]]) (Nested true [[0; 1]; [1; 0]])
    = ([], Normal (Some (Nested true ab)))
    /\ linearMultiply (Nested true [[0; 1]; [1; 0]]) (Nested true [[2; 0]; [0; 2]])
       = ([], Normal (Some (Nested true bc)))
    /\ linearMultiply (Nested true ab) (Nested true [[2; 0]; [0; 2]])
       = linearMultiply (Nested true [[1; 2]; [3; 4]]) (Nested true bc).
Proof.
  destruct (linearMultiply_associative 2 [[1; 2]; [3; 4]] [[0; 1]; [1; 0]]
              [[2; 0]; [0; 2]] [1; 1])
    as (ab & bc & _ & Hab & Hbc & _ & Hassoc & _); try reflexivity.
  exists ab, bc. split; [exact Hab|]. split; [exact Hbc|exact Hassoc].
Defined.

Lemma calculateDeterminant_multiplicative_witness :
  exists ab,
    linearMultiply (Nested true [[1; 2]; [3; 4]]) (Nested true [[0; 1]; [1; 0]])
    = ([], Normal (Some (Nested true ab)))
    /\ calculateDeterminant (Nested true ab)
       = ([], Normal (Some (determinant 2 [[1; 2]; [3; 4]]
                            * determinant 2 [[0; 1]; [1; 0]]))).
Proof.
  destruct (calculateDeterminant_multiplicative 2 [[1; 2]; [3; 4]] [[0; 1]; [1; 0]])
    as (ab & ta & Hab & _ & _ & Hdet & _); try reflexivity.
  exists ab. split; [exact Hab|exact Hdet].
Defined.

Lemma calculateInverseMatrix_left_inverse_witness :
  exists inverse,
    calculateInverseMatrix (Nested true [[2; 1]; [1; 1]])
    = ([], Normal (Some (Nested true inverse)))
    /\ linearMultiply (Nested true inverse) (Nested true [[2; 1]; [1; 1]])
       = ([], Normal (Some (identity 2))).
Proof.
  destruct (calculateInverseMatrix_left_inverse 2 [[2; 1]; [1; 1]] [1; 1])
    as (inverse & av & Hinv & Hleft & _); try reflexivity.
  - Exact.evaluate. lra.
  - exists inverse. split; [exact Hinv|exact Hleft].
Defined.

Lemma rotations_compose_witness :
  linearMultiply (rotateZ 30) (rotateZ 60) = ([], Normal (Some (rotateZ (30 + 60)))).
Proof.
  destruct (rotations_compose rotateZ 30 60) as (Hmul & _).
  - right. right. left. reflexivity.
  - exact Hmul.
Defined.

Lemma rotateMatrix_axis_witness :
  rotateMatrix 90 [Arr [2; 0; 0]] = ([], Normal (rotateX 90))
  /\ (m <- rotateMatrix 90 [Arr [1; 2; 2]] ;;
      linearMultiply m (Vector [1; 2; 2; 1]))
     = ([], Normal (Some (Vector [1; 2; 2; 1]))).
Proof.
  destruct (rotateMatrix_axis 90 1 2 2 1 2) as (_ & Hx & _ & _ & Hfixed).
  - lra.
  - apply Exists_cons_hd. lra.
  - split; [exact Hx|exact Hfixed].
Defined.

Lemma viewMatrixAt_looks_at_witness :
  exists view distance,
    viewMatrixAt (Vector [0; 0; 5]) (Vector [0; 0; 0]) (Vector [0; 1; 0])
    = ([], Normal (Some view))
    /\ linearMultiply view (Vector [0; 0; 5; 1])
       = ([], Normal (Some (Vector [0; 0; 0; 1])))
    /\ linearMultiply view (Vector [0; 0; 0; 1])
       = ([], Normal (Some (Vector [0; 0; - distance; 1]))).
Proof.
  destruct (viewMatrixAt_looks_at 0 0 5 0 0 0 0 1 0) as (_ & _ & Hlook).
  destruct Hlook
    as (n1 & n2 & n3 & u1 & u2 & u3 & v1 & v2 & v3 & tn & tu & tv
        & distance & Hview & _ & _ & Heye & _ & Hat).
  - intros [= E]. lra.
  - intros [= E _ _]. lra.
  - eexists _, distance. split; [exact Hview|]. split; [exact Heye|exact Hat].
Defined.

Lemma buildOrthographicMatrix_maps_box_witness :
  (m <- buildOrthographicMatrix 0 4 0 3 1 10 ;;
   linearMultiply m (Vector [0; 0; - 1; 1]))
  = ([], Normal (Some (Vector [-1; -1; -1; 1]))).
Proof.
  destruct (buildOrthographicMatrix_maps_box 0 4 0 3 1 10) as (Hnear & _);
    [lra|lra|lra|exact Hnear].
Defined.

Lemma buildPerspectiveMatrix_depth_witness :
  exists depth,
    (m <- buildPerspectiveMatrix 90 1 1 3 ;;
     linearMultiply m (Vector [0; 0; - 1; 1]))
    = ([], Normal (Some (Vector [1 / tan (90 * PI / 180 / 2) / 1 * 0;
                                 1 / tan (90 * PI / 180 / 2) * 0; depth; - - 1])))
    /\ depth = - 1.
Proof.
  destruct (buildPerspectiveMatrix_depth 90 1 1 3 0 0 (- 1))
    as (depth & Hm & Hnear & _).
  - replace (90 * PI / 180 / 2) with (PI / 4) by field. rewrite tan_PI4. lra.
  - lra.
  - lra.
  - exists depth. split; [exact Hm|]. apply Hnear. reflexivity.
Defined.

Lemma normalizeMatrix_normals_witness :
  exists normal,
    normalizeMatrix (Nested true [[2; 1]; [1; 1]]) false
    = ([], Normal (Some (Nested true normal)))
    /\ (n' <- linearMultiply (Nested true normal) (Vector [1; 0]) ;;
        v' <- linearMultiply (Nested true [[2; 1]; [1; 1]]) (Vector [0; 1]) ;;
        match n', v' with
        | Some (Vector n'), Some (Vector v') => dotProduct n' v'
        | _, _ => unmodelled
        end)
       = dotProduct [1; 0] [0; 1].
Proof.
  destruct (normalizeMatrix_normals 2 [[2; 1]; [1; 1]] [1; 0] [0; 1])
    as (inverse & normal & _ & _ & Hnormal & Hdot & _); try reflexivity.
  - Exact.evaluate. lra.
  - exists normal. split; [exact Hnormal|exact Hdot].
Defined.

End FurtherExamples.

Section CubeExample.
#[local] Existing Instance Binary64.plain.

Lemma quad_appends_witness :
  exists ps q,
    quad 1 0 3 2 {| points := []; colors := [] |}
    = ([], Normal {| points := ps; colors := replicate 6 q |})
    /\ length ps = 6%nat
    /\ vertexColors !! 1%nat = Some q.
Proof.
  destruct (quad_appends 1 0 3 2 {| points := []; colors := [] |})
    as (ps & q & Hquad & Hlen & _ & Hq & _); try lia.
  exists ps, q. split; [exact Hquad|]. split; [exact Hlen|exact Hq].
Defined.

End CubeExample.
